(** * Proposal generator: prompt construction and response handling

    A shallow embedding of the Python modules [contacts.py],
    [legal_docs.py], [company_profiles.py] and [project_lists.py], and the
    properties of their prompt builders and facades; then of the pages of
    [app.py] that call them and of [cover_letter.py].

    Conventions of the embedding.
    - A Python [str] is a [string] holding its UTF-8 bytes.  Substring
      tests and the code-point order used by [sorted] coincide with the
      byte-wise ones on UTF-8 text.
    - A call that raises is a value [inl e]; a call that returns [v] is
      [inr v].
    - A [dict] with string values (a party, a contact, a past project) is a
      [gmap string string]; the firm dictionary, whose values have two
      types, is a record with optional fields ([None] = key absent).
    - The two text-generation providers are oracles; every call made to
      them is appended to a log, so that "no provider call was made" is a
      statement about the log. *)

From Stdlib Require Import ZArith Lia Ascii String Permutation Sorted.
From stdpp Require Import base option list strings gmap pretty.

Set Warnings "-register-all".
Local Open Scope string_scope.

(** ** Python runtime: exceptions, strings *)

Module Py.

(** The exception classes that occur.  [ProviderError] stands for any other
    [Exception] a provider client raises; it carries [str(e)]. *)
Inductive exn : Type :=
| KeyError (key : string)
| IndexError
| ValueError (msg : string)
| RuntimeError (msg : string)
| JSONDecodeError (msg : string)
| UnboundLocalError (var : string)
| ProviderError (msg : string).

Definition result (A : Type) : Type := (exn + A)%type.

Definition ret {A} (a : A) : result A := inr a.
Definition raise {A} (e : exn) : result A := inl e.

Definition bind {A B} (m : result A) (k : A -> result B) : result B :=
  match m with
  | inl e => inl e
  | inr a => k a
  end.

Notation "'let!' x ':=' m 'in' k" := (bind m (fun x => k))
  (at level 10, x name, m at level 100, k at level 200).

(** [[f(x) for x in l]]: elements are evaluated left to right and the first
    exception aborts the comprehension. *)
Fixpoint comprehension {A B} (f : A -> result B) (l : list A) : result (list B) :=
  match l with
  | [] => ret []
  | x :: l' =>
      let! y := f x in
      let! ys := comprehension f l' in
      ret (y :: ys)
  end.

Definition nl : string := String (ascii_of_nat 10) "".
Definition dq : string := String (ascii_of_nat 34) "".
Definition sq : string := String (ascii_of_nat 39) "".

(** [str(e)].  [str(KeyError(k))] is [repr(k)]; the keys raised here are
    plain identifiers, whose [repr] is the key between single quotes. *)
Definition str (e : exn) : string :=
  match e with
  | KeyError k => sq ++ k ++ sq
  | IndexError => "list index out of range"
  | ValueError m => m
  | RuntimeError m => m
  | JSONDecodeError m => m
  | UnboundLocalError v =>
      "cannot access local variable " ++ sq ++ v ++ sq ++
      " where it is not associated with a value"
  | ProviderError m => m
  end.

(** [d[k]] *)
Definition getitem (d : gmap string string) (k : string) : result string :=
  match d !! k with
  | Some v => ret v
  | None => raise (KeyError k)
  end.

(** [d.get(k, dflt)] *)
Definition get (d : gmap string string) (k dflt : string) : string :=
  default dflt (d !! k).

(** [l[i]] for a non-negative literal index. *)
Definition item {A} (l : list A) (i : nat) : result A :=
  match l !! i with
  | Some x => ret x
  | None => raise IndexError
  end.

(** [sep.join(l)] *)
Definition join (sep : string) (l : list string) : string := String.concat sep l.

(** [s.lower()], on the ASCII letters.  Python also lowers letters outside
    ASCII; the only one whose lower case is an ASCII letter alone is the
    Kelvin sign (to k), a letter in none of the locale keys, so membership
    of [s.lower()] in the locale table is the same. *)
Definition lower_ascii (c : ascii) : ascii :=
  let n := nat_of_ascii c in
  if (65 <=? n)%nat && (n <=? 90)%nat then ascii_of_nat (n + 32) else c.

Fixpoint lower (s : string) : string :=
  match s with
  | "" => ""
  | String c s' => String (lower_ascii c) (lower s')
  end.

(** [str.isspace] on one code point, given by its UTF-8 bytes: the ASCII
    white space 09-0D, 1C-1F, 20 and the code points 85, A0, 1680,
    2000-200A, 2028, 2029, 202F, 205F, 3000. *)
Definition space1 (a : ascii) : bool :=
  let n := nat_of_ascii a in
  ((9 <=? n) && (n <=? 13) || (28 <=? n) && (n <=? 32))%nat.

Definition space2 (a b : ascii) : bool :=
  let m := nat_of_ascii a in
  let n := nat_of_ascii b in
  ((m =? 194) && ((n =? 133) || (n =? 160)))%nat.

Definition space3 (a b c : ascii) : bool :=
  let l := nat_of_ascii a in
  let m := nat_of_ascii b in
  let n := nat_of_ascii c in
  ((l =? 225) && (m =? 154) && (n =? 128)
   || (l =? 226) && (m =? 128)
        && ((128 <=? n) && (n <=? 138) || (n =? 168) || (n =? 169) || (n =? 175))
   || (l =? 226) && (m =? 129) && (n =? 159)
   || (l =? 227) && (m =? 128) && (n =? 128))%nat.

(** [s.lstrip()] *)
Fixpoint lstrip (s : string) : string :=
  match s with
  | "" => ""
  | String a s1 =>
      if space1 a then lstrip s1 else
      match s1 with
      | "" => s
      | String b s2 =>
          if space2 a b then lstrip s2 else
          match s2 with
          | "" => s
          | String c s3 => if space3 a b c then lstrip s3 else s
          end
      end
  end.

(** Is [s] exactly one white-space code point? *)
Definition one_space (s : string) : bool :=
  match s with
  | String a "" => space1 a
  | String a (String b "") => space2 a b
  | String a (String b (String c "")) => space3 a b c
  | _ => false
  end.

(** [s.rstrip()]: strip the rest; what is left is dropped too when, with
    the current byte in front, it is a single white-space code point. *)
Fixpoint rstrip (s : string) : string :=
  match s with
  | "" => ""
  | String a s' =>
      let r := String a (rstrip s') in
      if one_space r then "" else r
  end.

(** [s.strip()] *)
Definition strip (s : string) : string := rstrip (lstrip s).

(** [s[1:]] *)
Definition tail (s : string) : string :=
  match s with
  | "" => ""
  | String _ s' => s'
  end.

(** A text between double quotes. *)
Definition q (s : string) : string := dq ++ s ++ dq.

(** [sub in s] *)
Fixpoint contains (sub s : string) : bool :=
  String.prefix sub s ||
  match s with
  | "" => false
  | String _ s' => contains sub s'
  end.

(** [sorted(l, key=key)]: the stable sort of [l] by [key], keys compared as
    Python compares [str]s.  An element is inserted before the first
    element of the sorted rest whose key is not smaller than its own. *)
Section Sorted.
Context {A : Type} (key : A -> string).

Fixpoint insert_by (x : A) (l : list A) : list A :=
  match l with
  | [] => [x]
  | y :: l' =>
      if String.leb (key x) (key y) then x :: y :: l'
      else y :: insert_by x l'
  end.

Fixpoint sorted (l : list A) : list A :=
  match l with
  | [] => []
  | x :: l' => insert_by x (sorted l')
  end.

End Sorted.

(** [a or b] on strings: the empty string is the only false one. *)
Definition or_ (a b : string) : string :=
  match a with
  | "" => b
  | _ => a
  end.

(** [enumerate(l)] *)
Definition enumerate {A} (l : list A) : list (nat * A) :=
  zip (seq 0 (length l)) l.

(** *** Providers

    A provider call is one request to a text-generation service.  The
    oracle [provider] gives, for the calls made so far and the call made
    now, the text the service answers or the exception its client raises.
    Facade operations run in [M]: they take the log of calls made so far
    and give back their outcome with the extended log. *)
Inductive call : Type :=
| Gemini (model_name prompt : string)
| OpenAI (model system user temperature : string) (max_tokens : nat).

Definition provider : Type := list call -> call -> result string.

Definition M (A : Type) : Type := list call -> result A * list call.

Definition mret {A} (a : A) : M A := fun h => (inr a, h).
Definition mraise {A} (e : exn) : M A := fun h => (inl e, h).
Definition lift {A} (r : result A) : M A := fun h => (r, h).

Definition mbind {A B} (m : M A) (k : A -> M B) : M B :=
  fun h =>
    match m h with
    | (inl e, h') => (inl e, h')
    | (inr a, h') => k a h'
    end.

Notation "'let*' x ':=' m 'in' k" := (mbind m (fun x => k))
  (at level 10, x name, m at level 100, k at level 200).

Definition invoke (env : provider) (c : call) : M string :=
  fun h => (env h c, (h ++ [c])%list).

(** [try: body  except ...: handler]: the handler receives the exception
    raised in the body and decides what happens to it. *)
Definition try_except {A} (body : M A) (handler : exn -> M A) : M A :=
  fun h =>
    match body h with
    | (inl e, h') => handler e h'
    | (inr a, h') => (inr a, h')
    end.

End Py.

Import Py.

(** ** contacts.py *)

Module contacts.

Definition format_contact (contact : gmap string string) : result string :=
  let! name := getitem contact "name" in
  let! role := getitem contact "role" in
  let! email := getitem contact "email" in
  let! phone := getitem contact "phone" in
  ret ("Name: " ++ name ++ nl ++ "Role: " ++ role ++ nl ++
       "Email: " ++ email ++ nl ++ "Phone: " ++ phone).

Definition generate_contact_list (contacts : list (gmap string string))
    (order_by : string) : result (list string) :=
  let sorted_contacts := sorted (fun x => get x order_by "") contacts in
  comprehension format_contact sorted_contacts.

End contacts.

(** ** legal_docs.py *)

Module legal_docs.

Record templates : Type := {
  power_of_attorney : string;
  letter_of_association : string
}.

#[global] Instance templates_inhabited : Inhabited templates :=
  populate {| power_of_attorney := ""; letter_of_association := "" |}.

Definition english : templates := {|
  power_of_attorney := "
You are a legal document assistant.

Generate a formal, clear, and professional Power of Attorney document.

- Include the parties' full names and roles.
- Specify the authority granted clearly.
- Use formal legal language.
- Include date and place placeholders.
- The tone should be respectful, precise, and legally binding.
";
  letter_of_association := "
You are a legal document assistant.

Generate a formal Letter of Association for a consortium of firms joining for a project.

- List all participating firms with roles.
- Specify the purpose of association.
- Include obligations and collaboration terms briefly.
- Use formal legal language.
- Include date and place placeholders.
"
|}.

Definition portuguese : templates := {|
  power_of_attorney := "
Você é um assistente de documentos legais.

Gere uma procuração formal, clara e profissional.

- Inclua os nomes completos das partes e seus papéis.
- Especifique claramente os poderes concedidos.
- Use linguagem jurídica formal.
- Inclua espaços para data e local.
- O tom deve ser respeitoso, preciso e juridicamente vinculativo.
";
  letter_of_association := "
Você é um assistente de documentos legais.

Gere uma Carta de Associação formal para um consórcio de empresas que se unem para um projeto.

- Liste todas as empresas participantes com seus papéis.
- Especifique o propósito da associação.
- Inclua brevemente obrigações e termos de colaboração.
- Use linguagem jurídica formal.
- Inclua espaços para data e local.
"
|}.

Definition spanish : templates := {|
  power_of_attorney := "
Eres un asistente de documentos legales.

Genera un poder notarial formal, claro y profesional.

- Incluye los nombres completos de las partes y sus roles.
- Especifica claramente la autoridad otorgada.
- Usa lenguaje legal formal.
- Incluye espacios para fecha y lugar.
- El tono debe ser respetuoso, preciso y legalmente vinculante.
";
  letter_of_association := "
Eres un asistente de documentos legales.

Genera una Carta de Asociación formal para un consorcio de empresas que se unen para un proyecto.

- Enumera todas las empresas participantes con roles.
- Especifica el propósito de la asociación.
- Incluye brevemente las obligaciones y términos de colaboración.
- Usa lenguaje legal formal.
- Incluye espacios para fecha y lugar.
"
|}.

Definition templates_table : gmap string templates :=
  {[ "english" := english; "portuguese" := portuguese; "spanish" := spanish ]}.

Definition get_language_legal_templates (language : string) : templates :=
  let language := lower language in
  default (templates_table !!! "english") (templates_table !! language).

Definition build_prompt (doc_type : string) (parties : list (gmap string string))
    (project_name language : string) : result string :=
  let language_templates := get_language_legal_templates language in
  if decide (doc_type = "power_of_attorney") then
    let instructions := power_of_attorney language_templates in
    let! p0 := item parties 0 in
    let! name0 := getitem p0 "name" in
    let! role0 := getitem p0 "role" in
    let! p1 := item parties 1 in
    let! name1 := getitem p1 "name" in
    let! role1 := getitem p1 "role" in
    let prompt := "
" ++ instructions ++ "

Project Name: " ++ project_name ++ "

Principal: " ++ name0 ++ " (" ++ role0 ++ ")
Attorney-in-fact: " ++ name1 ++ " (" ++ role1 ++ ")

Generate the full legal Power of Attorney document below:
" in
    ret (strip prompt)
  else if decide (doc_type = "letter_of_association") then
    let instructions := letter_of_association language_templates in
    let! firms :=
      comprehension
        (fun p =>
           let! name := getitem p "name" in
           let! role := getitem p "role" in
           ret ("- " ++ name ++ " (" ++ role ++ ")"))
        parties in
    let firms_list := join nl firms in
    let prompt := "
" ++ instructions ++ "

Project Name: " ++ project_name ++ "

Participating Firms:
" ++ firms_list ++ "

Generate the full legal Letter of Association document below:
" in
    ret (strip prompt)
  else raise (ValueError "Unsupported document type").

(** [model.generate_content(prompt)] and [response.text], on the model
    [GenerativeModel(model_name=...)]. *)
Definition request (prompt : string) : call :=
  Gemini "models/gemini-1.5-flash" prompt.

Definition generate_legal_document (env : provider) (doc_type : string)
    (parties : list (gmap string string)) (project_name language : string)
    : M string :=
  let* prompt := lift (build_prompt doc_type parties project_name language) in
  try_except
    (let* text := invoke env (request prompt) in
     mret (strip text))
    (fun e => mret ("Error generating legal document: " ++ str e)).

End legal_docs.

(** ** company_profiles.py *)

Module company_profiles.

Record templates : Type := {
  example : string;
  instructions : string
}.

#[global] Instance templates_inhabited : Inhabited templates :=
  populate {| example := ""; instructions := "" |}.

Definition english : templates := {|
  example := "
Example Company Profile:

**Alpha Consulting**
Alpha Consulting is a leading engineering firm with over 20 years of experience in infrastructure development.
Key Strengths:
- Expertise in smart city solutions
- ISO 9001 and ISO 14001 certified
- Proven track record with 50+ projects completed in 10 countries

Contact: contact@alphaconsulting.com | +1-555-1234
";
  instructions := "
You are an expert technical writer. Generate a concise, engaging company profile section for a proposal.

- Use the English language.
- Include company name, core competencies, certifications, and notable achievements.
- Highlight relevance to the current project.
- Keep it under 200 words.
- Format with headings and bullet points for clarity.
"
|}.

Definition portuguese : templates := {|
  example := "
Exemplo de Perfil da Empresa:

**Alpha Consulting**
A Alpha Consulting é uma empresa líder em engenharia com mais de 20 anos de experiência em desenvolvimento de infraestrutura.
Principais Pontos Fortes:
- Especialização em soluções de cidades inteligentes
- Certificações ISO 9001 e ISO 14001
- Histórico comprovado com mais de 50 projetos concluídos em 10 países

Contato: contato@alphaconsulting.com | +55-11-5555-1234
";
  instructions := "
Você é um redator técnico especializado. Gere uma seção de perfil da empresa concisa e envolvente para uma proposta.

- Use a língua portuguesa.
- Inclua nome da empresa, competências principais, certificações e conquistas notáveis.
- Destaque a relevância para o projeto atual.
- Mantenha abaixo de 200 palavras.
- Formate com títulos e marcadores para clareza.
"
|}.

Definition spanish : templates := {|
  example := "
Ejemplo de Perfil de la Empresa:

**Alpha Consulting**
Alpha Consulting es una firma de ingeniería líder con más de 20 años de experiencia en desarrollo de infraestructura.
Puntos Fuertes:
- Experiencia en soluciones de ciudades inteligentes
- Certificaciones ISO 9001 e ISO 14001
- Historial comprobado con más de 50 proyectos completados en 10 países

Contacto: contacto@alphaconsulting.com | +34-555-123-456
";
  instructions := "
Eres un redactor técnico experto. Genera una sección de perfil de empresa concisa y atractiva para una propuesta.

- Usa el idioma español.
- Incluye nombre de la empresa, competencias clave, certificaciones y logros destacados.
- Resalta la relevancia para el proyecto actual.
- Mantén menos de 200 palabras.
- Formatea con encabezados y viñetas para claridad.
"
|}.

Definition SUPPORTED_LANGUAGES : list string :=
  ["english"; "portuguese"; "spanish"].

Definition templates_table : gmap string templates :=
  {[ "english" := english; "portuguese" := portuguese; "spanish" := spanish ]}.

Definition get_language_profile_templates (language : string) : templates :=
  let language := lower language in
  default (templates_table !!! "english") (templates_table !! language).

(** The [firm] dictionary; a field is [None] when the key is absent. *)
Record firm : Type := {
  name : option string;
  description : option string;
  certifications : option (list string);
  achievements : option (list string)
}.

(** [firm[k]] for a string-valued key [k]. *)
Definition firm_getitem (k : string) (v : option string) : result string :=
  match v with
  | Some s => ret s
  | None => raise (KeyError k)
  end.

Definition build_prompt (f : firm) (project_relevance language : string)
    : result string :=
  let language :=
    if bool_decide (lower language ∈ SUPPORTED_LANGUAGES)
    then lower language else "english" in
  let tpl := get_language_profile_templates language in
  let example := example tpl in
  let instructions := instructions tpl in
  let certs :=
    join nl (map (fun c => "- " ++ c) (default [] (certifications f))) in
  let achievements :=
    join nl (map (fun a => "- " ++ a) (default [] (achievements f))) in
  let! firm_name := firm_getitem "name" (name f) in
  let! firm_description := firm_getitem "description" (description f) in
  let prompt := "
" ++ instructions ++ "

Generate a company profile using the data below.

Company Name: " ++ firm_name ++ "
Description: " ++ firm_description ++ "
Certifications:
" ++ or_ certs "- None provided" ++ "
Key Achievements:
" ++ or_ achievements "- None provided" ++ "
Relevance to Project: " ++ project_relevance ++ "

" ++ example ++ "

Now produce the tailored company profile.
" in
  ret (strip prompt).

(** [openai.ChatCompletion.create(...)] and
    [response.choices[0].message.content]. *)
Definition request (prompt : string) : call :=
  OpenAI "gpt-4o-mini" "You write clear, professional company profiles."
    prompt "0.6" 400.

Definition generate_company_profile (env : provider) (f : firm)
    (project_relevance language : string) : M string :=
  let* prompt := lift (build_prompt f project_relevance language) in
  try_except
    (let* content := invoke env (request prompt) in
     mret (strip content))
    (fun e => mret ("Error generating company profile: " ++ str e)).

End company_profiles.

(** ** The JSON decoder

    [json.loads] of Python's standard library with its default options, on
    the response text: a total two-pass decoder (tokens, then a stack
    machine over them).  It accepts what the library accepts: white space
    is space, tab, line feed and carriage return; strings reject raw
    control characters and unknown escapes; numbers follow the JSON
    grammar; [NaN], [Infinity] and [-Infinity] are accepted.  A number
    without fraction and exponent decodes to an integer, any other keeps
    its lexeme (floating point is not interpreted).  The decoder's
    diagnostics and the interpreter's limits (recursion depth, digits of
    an integer) are not part of the model. *)

Module json.

Inductive value : Type :=
| Null
| Bool (b : bool)
| Int (z : Z)
| Float (lexeme : string)
| Str (s : string)
| Array (items : list value)
| Object (members : list (string * value)).

Inductive token : Type :=
| TLBrace | TRBrace | TLBracket | TRBracket | TColon | TComma
| TString (s : string)
| TAtom (lexeme : string).

Definition code (c : ascii) : N := N_of_ascii c.

Definition is_ws (c : ascii) : bool :=
  let n := code c in
  ((n =? 32) || (n =? 9) || (n =? 10) || (n =? 13))%N.

Definition is_digit (c : ascii) : bool :=
  let n := code c in ((48 <=? n) && (n <=? 57))%N.

(** Characters of numbers and of the literal names. *)
Definition is_atom_char (c : ascii) : bool :=
  let n := code c in
  (is_digit c || (65 <=? n) && (n <=? 90) || (97 <=? n) && (n <=? 122)
   || (n =? 43) || (n =? 45) || (n =? 46))%N.

Definition hex_digit (c : ascii) : option N :=
  let n := code c in
  if is_digit c then Some (n - 48)%N
  else if ((65 <=? n) && (n <=? 70))%N then Some (n - 55)%N
  else if ((97 <=? n) && (n <=? 102))%N then Some (n - 87)%N
  else None.

Definition hex4 (a b c d : ascii) : option N :=
  match hex_digit a, hex_digit b, hex_digit c, hex_digit d with
  | Some x, Some y, Some z, Some w => Some (((x * 16 + y) * 16 + z) * 16 + w)%N
  | _, _, _, _ => None
  end.

Definition byte (n : N) : string := String (ascii_of_N n) "".

(** The UTF-8 bytes of a code point (a lone surrogate is encoded like any
    other code point of its range). *)
Definition utf8 (n : N) : string :=
  if (n <? 128)%N then byte n
  else if (n <? 2048)%N then byte (192 + n / 64) ++ byte (128 + n mod 64)
  else if (n <? 65536)%N then
    byte (224 + n / 4096) ++ byte (128 + (n / 64) mod 64) ++ byte (128 + n mod 64)
  else
    byte (240 + n / 262144) ++ byte (128 + (n / 4096) mod 64) ++
    byte (128 + (n / 64) mod 64) ++ byte (128 + n mod 64).

Definition is_high (n : N) : bool := ((55296 <=? n) && (n <=? 56319))%N.
Definition is_low (n : N) : bool := ((56320 <=? n) && (n <=? 57343))%N.

Definition simple_escape (c : ascii) : option ascii :=
  let n := code c in
  if ((n =? 34) || (n =? 92) || (n =? 47))%N then Some c
  else if (n =? 98)%N then Some (ascii_of_N 8)
  else if (n =? 102)%N then Some (ascii_of_N 12)
  else if (n =? 110)%N then Some (ascii_of_N 10)
  else if (n =? 114)%N then Some (ascii_of_N 13)
  else if (n =? 116)%N then Some (ascii_of_N 9)
  else None.

Definition is_backslash (c : ascii) : bool := (code c =? 92)%N.
Definition is_u (c : ascii) : bool := (code c =? 117)%N.

(** The text of a string literal's body, escapes replaced. *)
Fixpoint unescape (s : string) : option string :=
  match s with
  | "" => Some ""
  | String c s1 =>
      if is_backslash c then
        match s1 with
        | "" => None
        | String e s2 =>
            if is_u e then
              match s2 with
              | String h1 (String h2 (String h3 (String h4 s3))) =>
                  match hex4 h1 h2 h3 h4 with
                  | None => None
                  | Some hi =>
                      let alone := (fun r => utf8 hi ++ r) <$> unescape s3 in
                      if is_high hi then
                        match s3 with
                        | String b (String u (String l1 (String l2
                            (String l3 (String l4 s4))))) =>
                            if is_backslash b && is_u u then
                              match hex4 l1 l2 l3 l4 with
                              | None => None
                              | Some lo =>
                                  if is_low lo then
                                    (fun r =>
                                       utf8 (65536 + (hi - 55296) * 1024
                                               + (lo - 56320)) ++ r)
                                      <$> unescape s4
                                  else alone
                              end
                            else alone
                        | _ => alone
                        end
                      else alone
                  end
              | _ => None
              end
            else
              match simple_escape e with
              | Some b => String b <$> unescape s2
              | None => None
              end
        end
      else String c <$> unescape s1
  end.

Inductive lex_state : Type :=
| LNormal
| LAtom (acc : string)
| LStr (acc : string)
| LStrEsc (acc : string).

Definition punct (c : ascii) : option token :=
  let n := code c in
  if (n =? 123)%N then Some TLBrace
  else if (n =? 125)%N then Some TRBrace
  else if (n =? 91)%N then Some TLBracket
  else if (n =? 93)%N then Some TRBracket
  else if (n =? 58)%N then Some TColon
  else if (n =? 44)%N then Some TComma
  else None.

(** The accumulators hold the characters read so far in reverse. *)
Fixpoint lex (st : lex_state) (s : string) : option (list token) :=
  match s with
  | "" =>
      match st with
      | LNormal => Some []
      | LAtom acc => Some [TAtom (String.rev acc)]
      | LStr _ | LStrEsc _ => None
      end
  | String c s' =>
      match st with
      | LStr acc =>
          if (code c =? 34)%N then
            match unescape (String.rev acc) with
            | Some t => cons (TString t) <$> lex LNormal s'
            | None => None
            end
          else if (code c <? 32)%N then None
          else if is_backslash c then lex (LStrEsc (String c acc)) s'
          else lex (LStr (String c acc)) s'
      | LStrEsc acc =>
          if (code c <? 32)%N then None else lex (LStr (String c acc)) s'
      | LAtom acc =>
          if is_atom_char c then lex (LAtom (String c acc)) s'
          else if is_ws c then cons (TAtom (String.rev acc)) <$> lex LNormal s'
          else if (code c =? 34)%N then
            cons (TAtom (String.rev acc)) <$> lex (LStr "") s'
          else
            match punct c with
            | Some t =>
                (fun r => TAtom (String.rev acc) :: t :: r) <$> lex LNormal s'
            | None => None
            end
      | LNormal =>
          if is_ws c then lex LNormal s'
          else if (code c =? 34)%N then lex (LStr "") s'
          else if is_atom_char c then lex (LAtom (String c "")) s'
          else
            match punct c with
            | Some t => cons t <$> lex LNormal s'
            | None => None
            end
      end
  end.

(** Numbers: an optional minus sign; the integer part, a single 0 or a
    non-zero digit followed by digits; an optional fraction, a dot and at
    least one digit; an optional exponent, e or E, an optional sign and at
    least one digit. *)
Fixpoint digits (s : string) (acc : Z) : Z * string :=
  match s with
  | "" => (acc, "")
  | String c s' =>
      if is_digit c then digits s' (acc * 10 + Z.of_N (code c - 48))%Z
      else (acc, s)
  end.

Definition starts_with_digit (s : string) : bool :=
  match s with
  | String c _ => is_digit c
  | "" => false
  end.

Definition exponent_ok (s : string) : bool :=
  match s with
  | String e r =>
      ((code e =? 101) || (code e =? 69))%N &&
      let r' :=
        match r with
        | String sg r1 =>
            if ((code sg =? 43) || (code sg =? 45))%N then r1 else r
        | "" => r
        end in
      starts_with_digit r' &&
      match digits r' 0 with
      | (_, "") => true
      | _ => false
      end
  | "" => false
  end.

Definition fraction_ok (s : string) : bool :=
  match s with
  | String d r =>
      (code d =? 46)%N && starts_with_digit r &&
      match digits r 0 with
      | (_, "") => true
      | (_, rest) => exponent_ok rest
      end
  | "" => false
  end.

Definition number (lexeme : string) : option value :=
  let (neg, body) :=
    match lexeme with
    | String c r => if (code c =? 45)%N then (true, r) else (false, lexeme)
    | "" => (false, lexeme)
    end in
  match body with
  | String c r =>
      if is_digit c then
        let (z, rest) :=
          if (code c =? 48)%N then (0%Z, r) else digits body 0 in
        match rest with
        | "" => Some (Int (if neg then - z else z)%Z)
        | _ =>
            if fraction_ok rest || exponent_ok rest
            then Some (Float lexeme) else None
        end
      else None
  | "" => None
  end.

Definition atom (lexeme : string) : option value :=
  if decide (lexeme = "null") then Some Null
  else if decide (lexeme = "true") then Some (Bool true)
  else if decide (lexeme = "false") then Some (Bool false)
  else if decide (lexeme = "NaN") then Some (Float lexeme)
  else if decide (lexeme = "Infinity") then Some (Float lexeme)
  else if decide (lexeme = "-Infinity") then Some (Float lexeme)
  else number lexeme.

(** The stack machine.  A frame is an enclosing array or object waiting
    for the value being read; accumulators are in reverse. *)
Inductive frame : Type :=
| FArr (acc : list value)
| FObj (acc : list (string * value)) (key : string).

Inductive state : Type :=
| SValue (stk : list frame)
| SArrStart (stk : list frame)
| SObjStart (stk : list frame)
| SObjKey (acc : list (string * value)) (stk : list frame)
| SObjColon (acc : list (string * value)) (key : string) (stk : list frame)
| SArrNext (acc : list value) (stk : list frame)
| SObjNext (acc : list (string * value)) (stk : list frame)
| SDone (v : value).

Definition deliver (v : value) (stk : list frame) : state :=
  match stk with
  | [] => SDone v
  | FArr acc :: stk' => SArrNext (v :: acc) stk'
  | FObj acc k :: stk' => SObjNext ((k, v) :: acc) stk'
  end.

Definition value_start (stk : list frame) (t : token) : option state :=
  match t with
  | TString s => Some (deliver (Str s) stk)
  | TAtom a => (fun v => deliver v stk) <$> atom a
  | TLBracket => Some (SArrStart stk)
  | TLBrace => Some (SObjStart stk)
  | _ => None
  end.

Definition step (st : state) (t : token) : option state :=
  match st, t with
  | SValue stk, _ => value_start stk t
  | SArrStart stk, TRBracket => Some (deliver (Array []) stk)
  | SArrStart stk, _ => value_start (FArr [] :: stk) t
  | SObjStart stk, TRBrace => Some (deliver (Object []) stk)
  | SObjStart stk, TString k => Some (SObjColon [] k stk)
  | SObjKey acc stk, TString k => Some (SObjColon acc k stk)
  | SObjColon acc k stk, TColon => Some (SValue (FObj acc k :: stk))
  | SArrNext acc stk, TComma => Some (SValue (FArr acc :: stk))
  | SArrNext acc stk, TRBracket => Some (deliver (Array (rev acc)) stk)
  | SObjNext acc stk, TComma => Some (SObjKey acc stk)
  | SObjNext acc stk, TRBrace => Some (deliver (Object (rev acc)) stk)
  | _, _ => None
  end.

Fixpoint run (st : state) (ts : list token) : option value :=
  match ts with
  | [] =>
      match st with
      | SDone v => Some v
      | _ => None
      end
  | t :: ts' =>
      match step st t with
      | Some st' => run st' ts'
      | None => None
      end
  end.

(** [json.loads(s)]; [None] when it raises [JSONDecodeError]. *)
Definition loads (s : string) : option value :=
  match lex LNormal s with
  | Some ts => run (SValue []) ts
  | None => None
  end.

(** [d[k]] on a decoded object: of two members with one key the later
    stands, as in the [dict] the library builds. *)
Fixpoint lookup_last (k : string) (members : list (string * value))
    : option value :=
  match members with
  | [] => None
  | (k', v) :: rest =>
      match lookup_last k rest with
      | Some v' => Some v'
      | None => if decide (k' = k) then Some v else None
      end
  end.

Definition member (k : string) (v : value) : option value :=
  match v with
  | Object members => lookup_last k members
  | _ => None
  end.

End json.

(** ** project_lists.py *)

Module project_lists.

Definition build_prompt (current_project : string)
    (past_projects : list (gmap string string)) : result string :=
  let! entries :=
    comprehension
      (fun ip : nat * gmap string string =>
         let (i, p) := ip in
         let! title := getitem p "title" in
         let! description := getitem p "description" in
         ret (pretty (i + 1)%nat ++ ". Title: " ++ title ++ "
   Description: " ++ description))
      (enumerate past_projects) in
  let project_list_text := join nl entries in
  let prompt := "
You are a proposal analyst. Given the current project and a list of past projects, do the following:

1. For each past project, rate its relevancy to the CURRENT PROJECT on a scale of 0–100.
2. Provide a one-sentence rationale for each rating.
3. Suggest three additional project ideas or case studies (title + one-line description) that would strengthen our proposal.

Use this format in JSON (no extra text):
{
  " ++ dq ++ "evaluations" ++ dq ++ ": [
    {
      " ++ dq ++ "title" ++ dq ++ ": " ++ dq ++ "Project Title" ++ dq ++ ",
      " ++ dq ++ "score" ++ dq ++ ": 0–100,
      " ++ dq ++ "rationale" ++ dq ++ ": " ++ dq ++ "One sentence justification" ++ dq ++ "
    },
    ...
  ],
  " ++ dq ++ "additional_recommendations" ++ dq ++ ": [
    {
      " ++ dq ++ "title" ++ dq ++ ": " ++ dq ++ "Recommended Project Title" ++ dq ++ ",
      " ++ dq ++ "description" ++ dq ++ ": " ++ dq ++ "One-line description" ++ dq ++ "
    },
    ...
  ]
}

CURRENT PROJECT:
" ++ dq ++ dq ++ dq ++ current_project ++ dq ++ dq ++ dq ++ "

PAST PROJECTS:
" ++ project_list_text ++ "
" in
  ret (strip prompt).

(** The two [except] clauses of [generate_project_list].  [content] is the
    local variable of that name: [None] while it is not yet assigned, which
    is the case when the provider call itself raised. *)
Definition handler (content : option string) (e : exn) : M json.value :=
  match e with
  | JSONDecodeError je =>
      match content with
      | Some c =>
          mraise (ValueError
            ("Failed to parse JSON from model response: " ++ je ++ nl ++
             "Raw response:" ++ nl ++ c))
      | None => mraise (UnboundLocalError "content")
      end
  | _ => mraise (RuntimeError ("OpenAI API error: " ++ str e))
  end.

(** [openai.ChatCompletion.create(...)] and
    [resp.choices[0].message.content]. *)
Definition request (prompt : string) : call :=
  OpenAI "gpt-4o-mini" "You analyze project relevancy and suggest improvements."
    prompt "0.3" 600.

(** [je_text] gives the text of the [JSONDecodeError] the decoder raises on
    a document it rejects. *)
Definition generate_project_list (env : provider) (je_text : string -> string)
    (current_project : string) (past_projects : list (gmap string string))
    : M json.value :=
  let* prompt := lift (build_prompt current_project past_projects) in
  fun h =>
    match invoke env (request prompt) h with
    | (inl e, h') => handler None e h'
    | (inr text, h') =>
        let content := strip text in
        match json.loads content with
        | Some data => (inr data, h')
        | None => handler (Some content) (JSONDecodeError (je_text content)) h'
        end
    end.

End project_lists.

(** ** app.py

    What the pages compute when their button is pressed.  The values of
    the input widgets are the arguments; how the results are displayed or
    kept in the session is not modelled. *)

Module app.

(** The dictionary the legal page builds from a name and a role. *)
Definition party (nr : string * string) : gmap string string :=
  {[ "name" := nr.1; "role" := nr.2 ]}.

(** Under the button "Generate Legal Docs". *)
Definition generate_legal_docs (env : provider) (project_name : string)
    (inputs : list (string * string)) (lang : string) : M (string * string) :=
  let parties := party <$> inputs in
  let* poa :=
    legal_docs.generate_legal_document env "power_of_attorney"
      (take 2 parties) project_name lang in
  let* loa :=
    legal_docs.generate_legal_document env "letter_of_association"
      parties project_name lang in
  mret (poa, loa).

(** Under the button "Generate Profiles": the loop over the firms, each
    with its relevance statement, that fills the dictionary [profiles].
    In [profiles[f["name"]] = generate_company_profile(...)] the call is
    evaluated before the key. *)
Fixpoint generate_profiles (env : provider)
    (firms : list (company_profiles.firm * string)) (lang : string)
    (profiles : gmap string string) : M (gmap string string) :=
  match firms with
  | [] => mret profiles
  | (f, relevance) :: firms' =>
      let* profile :=
        company_profiles.generate_company_profile env f relevance lang in
      let* name :=
        lift (company_profiles.firm_getitem "name" (company_profiles.name f)) in
      generate_profiles env firms' lang (<[name := profile]> profiles)
  end.

(** The dictionary the contact page builds from its four text inputs. *)
Definition contact (i : string * string * string * string)
    : gmap string string :=
  let '(name, role, email, phone) := i in
  {[ "name" := name; "role" := role; "email" := email; "phone" := phone ]}.

(** How a page ends: with a value, with an exception of the functions it
    calls, or with the [AttributeError] of a method the object has not. *)
Inductive outcome (A : Type) : Type :=
| Done (a : A)
| Raised (e : exn)
| AttributeError (msg : string).

Arguments Done {A} a.
Arguments Raised {A} e.
Arguments AttributeError {A} msg.

(** Under the button "Generate Contacts", up to the text handed to the
    display: [formatted] is the list [generate_contact_list] returns, and
    a list has no method [replace]. *)
Definition generate_contacts (inputs : list (string * string * string * string))
    (order : string) : outcome string :=
  let contacts := contact <$> inputs in
  match contacts.generate_contact_list contacts order with
  | inl e => Raised e
  | inr formatted =>
      AttributeError
        (sq ++ "list" ++ sq ++ " object has no attribute " ++ sq ++ "replace"
         ++ sq)
  end.

End app.

(** ** cover_letter.py *)

Module cover_letter.

(** [template.format] with keyword arguments, for templates whose fields are
    plain names, as those of the source are.  The result is [None] where
    the template leaves this fragment: a field that is empty or a number
    (a positional argument), or that holds a conversion, a format
    specification, an attribute or an index.  Doubled braces stand for
    one brace; the values are inserted as they are and not read again. *)
Inductive format_state : Type :=
| Text
| AfterOpen
| AfterClose
| Field (acc : string).

Definition is_open (c : ascii) : bool := (nat_of_ascii c =? 123)%nat.
Definition is_close (c : ascii) : bool := (nat_of_ascii c =? 125)%nat.

(** The characters that end the name of a field without closing it. *)
Definition is_field_syntax (c : ascii) : bool :=
  let n := nat_of_ascii c in
  ((n =? 46) || (n =? 91) || (n =? 33) || (n =? 58) || (n =? 123))%nat.

Fixpoint all_digits (s : string) : bool :=
  match s with
  | "" => true
  | String c s' =>
      let n := nat_of_ascii c in
      ((48 <=? n) && (n <=? 57))%nat && all_digits s'
  end.

Definition emit (c : ascii) (r : option (result string))
    : option (result string) :=
  match r with
  | Some (inr s) => Some (inr (String c s))
  | _ => r
  end.

Definition emit_value (v : string) (r : option (result string))
    : option (result string) :=
  match r with
  | Some (inr s) => Some (inr (v ++ s))
  | _ => r
  end.

Fixpoint format_from (st : format_state) (template : string)
    (kwargs : gmap string string) : option (result string) :=
  match template with
  | "" =>
      match st with
      | Text => Some (inr "")
      | AfterOpen =>
          Some (inl (ValueError "Single '{' encountered in format string"))
      | AfterClose =>
          Some (inl (ValueError "Single '}' encountered in format string"))
      | Field _ =>
          Some (inl (ValueError "expected '}' before end of string"))
      end
  | String c t =>
      match st with
      | Text =>
          if is_open c then format_from AfterOpen t kwargs
          else if is_close c then format_from AfterClose t kwargs
          else emit c (format_from Text t kwargs)
      | AfterOpen =>
          if is_open c then emit c (format_from Text t kwargs)
          else if is_close c || is_field_syntax c then None
          else format_from (Field (String c "")) t kwargs
      | AfterClose =>
          if is_close c then emit c (format_from Text t kwargs)
          else
            Some (inl (ValueError "Single '}' encountered in format string"))
      | Field acc =>
          if is_close c then
            let key := String.rev acc in
            if all_digits key then None
            else
              match kwargs !! key with
              | Some v => emit_value v (format_from Text t kwargs)
              | None => Some (inl (KeyError key))
              end
          else if is_field_syntax c then None
          else format_from (Field (String c acc)) t kwargs
      end
  end.

Definition format (template : string) (kwargs : gmap string string)
    : option (result string) :=
  format_from Text template kwargs.

Record templates : Type := {
  example : string;
  instructions : string
}.

#[global] Instance templates_inhabited : Inhabited templates :=
  populate {| example := ""; instructions := "" |}.

Definition english : templates := {|
  example := "
Example Cover Letter:

Dear Review Committee,

We are pleased to submit our Expression of Interest for the project titled " ++ dq ++ "{project_name}" ++ dq ++ ".
Our consortium, led by {lead_firm}, includes {firms}.
With a combined experience of over 50 years in sustainable energy projects, we are confident in delivering exceptional results aligned with the funding institution's objectives.

We look forward to collaborating on this transformative project.

Sincerely,
{lead_firm}
";
  instructions := "
You are a professional proposal writer tasked with creating a formal, clear, and engaging cover letter for a consulting or engineering project proposal.

- Use the English language.
- Address the funding institution respectfully.
- Mention the project name and a concise summary.
- Highlight the participating firms by name and emphasize the leadership of the lead firm.
- Showcase the strengths, experience, and relevance of the consortium.
- Match the tone expected by funding bodies: formal, confident, and precise.
- Avoid overly technical jargon but maintain professionalism.
- Format the letter as a standard business letter.
"
|}.

Definition portuguese : templates := {|
  example := "
Exemplo de Carta de Apresentação:

Prezada Comissão Avaliadora,

Temos o prazer de submeter nossa Manifestação de Interesse para o projeto intitulado " ++ dq ++ "{project_name}" ++ dq ++ ".
Nosso consórcio, liderado pela {lead_firm}, inclui {firms}.
Com uma experiência combinada de mais de 50 anos em projetos de energia sustentável, estamos confiantes em entregar resultados excepcionais alinhados aos objetivos da instituição financiadora.

Esperamos colaborar neste projeto transformador.

Atenciosamente,
{lead_firm}
";
  instructions := "
Você é um redator profissional de propostas encarregado de criar uma carta de apresentação formal, clara e envolvente para uma proposta de projeto de consultoria ou engenharia.

- Use a língua portuguesa.
- Dirija-se respeitosamente à instituição financiadora.
- Mencione o nome do projeto e um resumo conciso.
- Destaque as empresas participantes pelo nome e enfatize a liderança da empresa líder.
- Apresente os pontos fortes, a experiência e a relevância do consórcio.
- Adote o tom esperado pelas instituições financiadoras: formal, confiante e preciso.
- Evite jargões técnicos excessivos, mas mantenha o profissionalismo.
- Formate a carta como uma carta comercial padrão.
"
|}.

Definition spanish : templates := {|
  example := "
Ejemplo de Carta de Presentación:

Estimado Comité Evaluador,

Nos complace presentar nuestra Manifestación de Interés para el proyecto titulado " ++ dq ++ "{project_name}" ++ dq ++ ".
Nuestro consorcio, liderado por {lead_firm}, incluye a {firms}.
Con una experiencia combinada de más de 50 años en proyectos de energía sostenible, confiamos en ofrecer resultados excepcionales alineados con los objetivos de la institución financiadora.

Esperamos colaborar en este proyecto transformador.

Atentamente,
{lead_firm}
";
  instructions := "
Eres un redactor profesional de propuestas encargado de crear una carta de presentación formal, clara y atractiva para una propuesta de proyecto de consultoría o ingeniería.

- Usa el idioma español.
- Dirígete respetuosamente a la institución financiadora.
- Menciona el nombre del proyecto y un resumen conciso.
- Destaca las empresas participantes por nombre y enfatiza el liderazgo de la empresa líder.
- Muestra las fortalezas, experiencia y relevancia del consorcio.
- Adopta el tono esperado por las instituciones financiadoras: formal, confiado y preciso.
- Evita la jerga técnica excesiva pero mantén el profesionalismo.
- Formatea la carta como una carta comercial estándar.
"
|}.

Definition templates_table : gmap string templates :=
  {[ "english" := english; "portuguese" := portuguese; "spanish" := spanish ]}.

Definition get_language_templates (language : string) : templates :=
  let language := lower language in
  default (templates_table !!! "english") (templates_table !! language).

Definition build_prompt (project_name project_description
    funding_institution : string) (firms : list (gmap string string))
    (lead_firm language : string) : option (result string) :=
  let language_templates := get_language_templates language in
  match comprehension (fun firm => getitem firm "name") firms with
  | inl e => Some (inl e)
  | inr names =>
      let firm_names := join ", " names in
      match
        format (example language_templates)
          {[ "project_name" := project_name; "lead_firm" := lead_firm;
             "firms" := firm_names ]}
      with
      | None => None
      | Some (inl e) => Some (inl e)
      | Some (inr example) =>
          let instructions := instructions language_templates in
          let prompt := "
" ++ instructions ++ "

Here is the project information you must incorporate:

Project Name: " ++ project_name ++ "
Project Description: " ++ project_description ++ "
Funding Institution: " ++ funding_institution ++ "
Participating Firms: " ++ firm_names ++ "
Lead Firm: " ++ lead_firm ++ "

" ++ example ++ "

Now generate the cover letter following these guidelines.
" in
          Some (inr (strip prompt))
      end
  end.

(** [generate_content] stands for
    [model.generate_content(prompts=[{"text": prompt}])] followed by
    [response.text]: the text, or the exception raised. *)
Definition generate_cover_letter (generate_content : string -> result string)
    (project_name project_description funding_institution : string)
    (firms : list (gmap string string)) (lead_firm language : string)
    : option (result string) :=
  match
    build_prompt project_name project_description funding_institution firms
      lead_firm language
  with
  | None => None
  | Some (inl e) => Some (inl e)
  | Some (inr prompt) =>
      match generate_content prompt with
      | inr text => Some (inr (strip text))
      | inl e =>
          Some (inl (RuntimeError
                       ("Cover letter generation failed: " ++ str e)))
      end
  end.

(** The prompt templates at the end of the file. *)
Definition POWER_OF_ATTORNEY_TEMPLATE : string :=
  "You are a legal document specialist.
Draft a Power of Attorney document using only the details below.
Do not hallucinate any legal clauses—use standard, generic language.

Firm Granting Power: {grantor_firm}
Authorized Representative: {representative_name}, {representative_title}
Scope of Authority: {scope_of_authority}
Effective Date: {effective_date}

Structure:
1. Title: POWER OF ATTORNEY
2. Identification of grantor and representative
3. Statement of authority granted
4. Duration and limitations
5. Signatures and notarization block
".

Definition LETTER_OF_ASSOCIATION_TEMPLATE : string :=
  "You are a legal document specialist.
Draft a Letter of Association with the details below.
Use only provided information; do not add details.

Lead Firm: {lead_firm}
Associate Firm: {associate_firm}
Purpose of Association: {association_purpose}
Effective Date: {effective_date}

Structure:
1. Title: LETTER OF ASSOCIATION
2. Introductory statement of purpose
3. Roles and responsibilities of each firm
4. Duration and termination clauses
5. Signature block for both firms
".

Definition COMPANY_PROFILE_TEMPLATE : string :=
  "You are a marketing copywriter.
Create a concise company profile section using only the data below.

Firm Name: {firm_name}
Established: {year_established}
Headquarters: {headquarters_location}
Core Competencies: {core_competencies}
Key Projects (with dates): {key_projects}

Structure:
1. Company Overview (1–2 sentences)
2. Core Competencies (bullet points)
3. Highlighted Past Projects (bullet points with dates)
4. Unique Value Proposition specific to the current project requirements
".

Definition CONTACT_INFO_TEMPLATE : string :=
  "You are a detail-oriented assistant.
Compile the contact information into a neatly formatted table or list,
using only the fields given. Do not add or omit fields.

Contacts:
{contacts_list}

Output as:
| Name               | Title             | Email               | Phone       |
|--------------------|-------------------|---------------------|-------------|
| ...                | ...               | ...                 | ...         |
".

Definition PROJECT_LIST_ENTRY_TEMPLATE : string :=
  "You are an analytical reviewer.
For each past project provided, score its relevance (1–5) to the current project,
and generate a short justification. Use only these inputs—no extra info.

Current Project Requirements: {current_requirements}

Past Project:
- Name: {past_project_name}
- Description: {past_project_description}
- Year: {past_project_year}

Output Format:
- Project Name: …
- Relevance Score (1–5): …
- Justification: … (1–2 sentences)
".

Definition get_poaw_prompt (grantor_firm representative_name
    representative_title scope_of_authority effective_date : string)
    : option (result string) :=
  format POWER_OF_ATTORNEY_TEMPLATE
    {[ "grantor_firm" := grantor_firm;
       "representative_name" := representative_name;
       "representative_title" := representative_title;
       "scope_of_authority" := scope_of_authority;
       "effective_date" := effective_date ]}.

Definition get_loa_prompt (lead_firm associate_firm association_purpose
    effective_date : string) : option (result string) :=
  format LETTER_OF_ASSOCIATION_TEMPLATE
    {[ "lead_firm" := lead_firm; "associate_firm" := associate_firm;
       "association_purpose" := association_purpose;
       "effective_date" := effective_date ]}.

Definition get_company_profile_prompt (firm_name year_established
    headquarters_location core_competencies key_projects : string)
    : option (result string) :=
  format COMPANY_PROFILE_TEMPLATE
    {[ "firm_name" := firm_name; "year_established" := year_established;
       "headquarters_location" := headquarters_location;
       "core_competencies" := core_competencies;
       "key_projects" := key_projects ]}.

Definition get_contacts_prompt (contacts_list : string)
    : option (result string) :=
  format CONTACT_INFO_TEMPLATE {[ "contacts_list" := contacts_list ]}.

Definition get_project_list_entry_prompt (current_requirements
    past_project_name past_project_description past_project_year : string)
    : option (result string) :=
  format PROJECT_LIST_ENTRY_TEMPLATE
    {[ "current_requirements" := current_requirements;
       "past_project_name" := past_project_name;
       "past_project_description" := past_project_description;
       "past_project_year" := past_project_year ]}.

End cover_letter.

(** * Vocabulary of the properties *)

(** The order of two elements by their sort keys. *)
Definition key_le {A : Type} (key : A -> string) (a b : A) : Prop :=
  String.leb (key a) (key b) = true.

Definition contact_keys : list string := ["name"; "role"; "email"; "phone"].

(** A contact that carries all four keys. *)
Definition complete (c : gmap string string) : Prop :=
  Forall (fun k => is_Some (c !! k)) contact_keys.

(** A locale string is supported when the table of [company_profiles.py]
    has it, letter case apart: the test of [build_prompt] there. *)
Definition supported (language : string) : Prop :=
  lower language ∈ company_profiles.SUPPORTED_LANGUAGES.

(** An instruction text is framed when it starts with a line break and
    the rest of it starts with something [lstrip] keeps. *)
Definition framed (instr : string) : Prop :=
  exists body, instr = nl ++ body /\ forall r, lstrip (body ++ r) = body ++ r.

Definition has_name_role (p : gmap string string) : Prop :=
  is_Some (p !! "name") /\ is_Some (p !! "role").

Definition firm_line (p : gmap string string) : result string :=
  let! name := getitem p "name" in
  let! role := getitem p "role" in
  ret ("- " ++ name ++ " (" ++ role ++ ")").

(** The lines of a list-valued section as the specification words them:
    one line per item, in order, or the placeholder line for no item. *)
Definition section_lines (items : list string) : list string :=
  match items with
  | [] => ["- None provided"]
  | _ => map (fun item => "- " ++ item) items
  end.

(** Three complete contacts, two of them of one name, and a list with a
    contact that has no role. *)
Definition sample_contacts : list (gmap string string) :=
  [ {[ "name" := "Bob"; "role" := "Engineer";
       "email" := "bob@example.com"; "phone" := "2" ]};
    {[ "name" := "Ann"; "role" := "Director";
       "email" := "ann@example.com"; "phone" := "1" ]};
    {[ "name" := "Bob"; "role" := "Analyst";
       "email" := "bob2@example.com"; "phone" := "3" ]} ].

Definition incomplete_contacts : list (gmap string string) :=
  [ {[ "name" := "Bob"; "role" := "Engineer";
       "email" := "bob@example.com"; "phone" := "2" ]};
    {[ "name" := "Ann"; "email" := "ann@example.com"; "phone" := "1" ]} ].

(** The parties of the manual test of [legal_docs.py]. *)
Definition power_of_attorney_parties : list (gmap string string) :=
  [ {[ "name" := "John Doe"; "role" := "Principal" ]};
    {[ "name" := "Jane Smith"; "role" := "Attorney-in-fact" ]} ].

Definition letter_of_association_parties : list (gmap string string) :=
  [ {[ "name" := "Alpha Consulting"; "role" := "Lead Firm" ]};
    {[ "name" := "Beta Engineering"; "role" := "Partner" ]};
    {[ "name" := "Gamma Solutions"; "role" := "Partner" ]} ].

Definition john_doe : gmap string string :=
  {[ "name" := "John Doe"; "role" := "Principal" ]}.

Definition jane_smith : gmap string string :=
  {[ "name" := "Jane Smith"; "role" := "Attorney-in-fact" ]}.

Definition gamma_solutions : gmap string string :=
  {[ "name" := "Gamma Solutions"; "role" := "Observer" ]}.

(** A firm with an empty list of certifications and no achievements key. *)
Definition bare_firm : company_profiles.firm :=
  {| company_profiles.name := Some "Alpha Consulting";
     company_profiles.description := Some "An engineering firm.";
     company_profiles.certifications := Some [];
     company_profiles.achievements := None |}.

(** The firm of the manual test of [company_profiles.py]. *)
Definition sample_firm : company_profiles.firm :=
  {| company_profiles.name := Some "Alpha Consulting";
     company_profiles.description :=
       Some "A multidisciplinary engineering firm specializing in urban infrastructure.";
     company_profiles.certifications := Some ["ISO 9001"; "ISO 14001"];
     company_profiles.achievements :=
       Some ["Completed 50+ international projects";
             "Awarded Best Green Design 2023"] |}.

(** The data of the manual test of [project_lists.py]. *)
Definition current : string :=
  "Implementation of AI-based water conservation and distribution systems.".

Definition past : list (gmap string string) :=
  [ {[ "title" := "Urban Smart Grid Deployment";
       "description" :=
         "Developed a city-wide smart grid to optimize energy consumption." ]};
    {[ "title" := "IoT Environmental Monitoring";
       "description" :=
         "Built an IoT network to track air and water quality in real time." ]};
    {[ "title" := "Rural Solar Expansion";
       "description" :=
         "Expanded solar panel installations in rural communities." ]} ].

(** A provider that answers every request with the same text, and one
    whose client raises on every request. *)
Definition answering (text : string) : provider := fun _ _ => inr text.

Definition failing (e : exn) : provider := fun _ _ => inl e.

Definition decoder_text (content : string) : string :=
  "Expecting value: line 1 column 1 (char 0)".

(** A response with one evaluation, of score 150, and no recommendation. *)
Definition short_response : string :=
  "{" ++ q "evaluations" ++ ": [{" ++ q "title" ++ ": " ++
  q "Urban Smart Grid Deployment" ++ ", " ++ q "score" ++ ": 150, " ++
  q "rationale" ++ ": " ++ q "Both optimise a utility network." ++ "}], " ++
  q "additional_recommendations" ++ ": []}".

(** A response with two evaluations and three recommendations. *)
Definition two_evaluations : string :=
  "{" ++ q "evaluations" ++ ": [{" ++ q "title" ++ ": " ++
  q "Urban Smart Grid Deployment" ++ ", " ++ q "score" ++ ": 70, " ++
  q "rationale" ++ ": " ++ q "Both optimise a utility network." ++ "}, {" ++
  q "title" ++ ": " ++ q "IoT Environmental Monitoring" ++ ", " ++
  q "score" ++ ": 85, " ++ q "rationale" ++ ": " ++
  q "Water quality sensing carries over." ++ "}], " ++
  q "additional_recommendations" ++ ": [{" ++ q "title" ++ ": " ++ q "A" ++
  ", " ++ q "description" ++ ": " ++ q "a" ++ "}, {" ++ q "title" ++ ": " ++
  q "B" ++ ", " ++ q "description" ++ ": " ++ q "b" ++ "}, {" ++
  q "title" ++ ": " ++ q "C" ++ ", " ++ q "description" ++ ": " ++ q "c" ++
  "}]}".

(** The failure of a provider client that cannot reach its service. *)
Definition connection_error : exn := ProviderError "Connection error.".

(** A provider whose Gemini service is down while its OpenAI service
    answers, and one the other way round. *)
Definition gemini_down (text : string) : provider :=
  fun _ c =>
    match c with
    | Gemini _ _ => inl connection_error
    | OpenAI _ _ _ _ _ => inr text
    end.

Definition openai_down (text : string) : provider :=
  fun _ c =>
    match c with
    | Gemini _ _ => inr text
    | OpenAI _ _ _ _ _ => inl connection_error
    end.

(** A letter of association of one party, and the parties of a power of
    attorney followed by a third that has neither name nor role. *)
Definition single_party : list (gmap string string) :=
  [ {[ "name" := "Alpha Consulting"; "role" := "Lead Firm" ]} ].

Definition parties_with_blank_third : list (gmap string string) :=
  [ {[ "name" := "John Doe"; "role" := "Principal" ]};
    {[ "name" := "Jane Smith"; "role" := "Attorney-in-fact" ]};
    ∅ ].

(** The contacts of [sample_contacts] in the order of their roles. *)
Definition contacts_by_role : list (gmap string string) :=
  [ {[ "name" := "Bob"; "role" := "Analyst";
       "email" := "bob2@example.com"; "phone" := "3" ]};
    {[ "name" := "Ann"; "role" := "Director";
       "email" := "ann@example.com"; "phone" := "1" ]};
    {[ "name" := "Bob"; "role" := "Engineer";
       "email" := "bob@example.com"; "phone" := "2" ]} ].

(** The line of a party in the letter of association. *)
Definition party_line (np : string * string) : string :=
  "- " ++ np.1 ++ " (" ++ np.2 ++ ")".

Definition party_entries : list (string * string) :=
  [ ("Alpha Consulting", "Lead Firm"); ("Beta Engineering", "Partner");
    ("Gamma Solutions", "Partner") ].

(** A letter of association whose second party has no role. *)
Definition parties_without_role : list (gmap string string) :=
  [ {[ "name" := "Alpha Consulting"; "role" := "Lead Firm" ]};
    {[ "name" := "Beta Engineering" ]} ].

(** The fixed text the project-evaluation prompt starts with. *)
Definition project_header : string :=
  "You are a proposal analyst. Given the current project and a list of past projects, do the following:

1. For each past project, rate its relevancy to the CURRENT PROJECT on a scale of 0–100.
2. Provide a one-sentence rationale for each rating.
3. Suggest three additional project ideas or case studies (title + one-line description) that would strengthen our proposal.

Use this format in JSON (no extra text):
{
  " ++ dq ++ "evaluations" ++ dq ++ ": [
    {
      " ++ dq ++ "title" ++ dq ++ ": " ++ dq ++ "Project Title" ++ dq ++ ",
      " ++ dq ++ "score" ++ dq ++ ": 0–100,
      " ++ dq ++ "rationale" ++ dq ++ ": " ++ dq ++ "One sentence justification" ++ dq ++ "
    },
    ...
  ],
  " ++ dq ++ "additional_recommendations" ++ dq ++ ": [
    {
      " ++ dq ++ "title" ++ dq ++ ": " ++ dq ++ "Recommended Project Title" ++ dq ++ ",
      " ++ dq ++ "description" ++ dq ++ ": " ++ dq ++ "One-line description" ++ dq ++ "
    },
    ...
  ]
}

CURRENT PROJECT:
".

(** The entry of a past project in the prompt, as [build_prompt] of
    [project_lists.py] writes it. *)
Definition project_entry (ip : nat * gmap string string) : result string :=
  let (i, p) := ip in
  let! title := getitem p "title" in
  let! description := getitem p "description" in
  ret (pretty (i + 1)%nat ++ ". Title: " ++ title ++ "
   Description: " ++ description).

Definition has_title_description (p : gmap string string) : Prop :=
  is_Some (p !! "title") /\ is_Some (p !! "description").

(** A firm without description. *)
Definition firm_without_description : company_profiles.firm :=
  {| company_profiles.name := Some "Alpha Consulting";
     company_profiles.description := None;
     company_profiles.certifications := Some ["ISO 9001"];
     company_profiles.achievements := None |}.

(** Past projects, the second without description. *)
Definition past_without_description : list (gmap string string) :=
  [ {[ "title" := "Urban Smart Grid Deployment";
       "description" :=
         "Developed a city-wide smart grid to optimize energy consumption." ]};
    {[ "title" := "IoT Environmental Monitoring" ]} ].

(** A JSON document inside a Markdown code fence. *)
Definition fenced_response : string :=
  "```json
" ++ two_evaluations ++ "
```
".

(** No white-space code point at the start of [s]. *)
Definition starts_clean (s : string) : bool :=
  match s with
  | "" => true
  | String a s1 =>
      negb (space1 a) &&
      match s1 with
      | "" => true
      | String b s2 =>
          negb (space2 a b) &&
          match s2 with
          | "" => true
          | String c _ => negb (space3 a b c)
          end
      end
  end.

(** Past projects whose last description ends with white space. *)
Definition past_with_trailing_space : list (gmap string string) :=
  [ {[ "title" := "Rural Solar Expansion";
       "description" := "Expanded solar panel installations.  
 " ]} ].

Definition legal_inputs : list (string * string) :=
  [ ("Alpha Consulting", "Lead Firm"); ("Beta Engineering", "Partner");
    ("Gamma Solutions", "Partner") ].

(** Two firms of one name. *)
Definition firms_of_one_name : list (company_profiles.firm * string) :=
  [ (sample_firm, "Smart City"); (bare_firm, "Water") ].

(** The firms of the example at the end of the cover-letter code. *)
Definition sample_firms : list (gmap string string) :=
  [ {[ "name" := "Alpha Consulting" ]}; {[ "name" := "Beta Engineers" ]} ].

(** The key whose lookup fails first in a dictionary read at [k1] and
    then at [k2], one of the two missing. *)
Definition first_missing (k1 k2 : string) (d : gmap string string) : string :=
  match d !! k1 with
  | None => k1
  | Some _ => k2
  end.

(** The entry of a past project of title [itd.2.1] and description
    [itd.2.2] at position [itd.1], counted from 0. *)
Definition project_line (itd : nat * (string * string)) : string :=
  pretty (itd.1 + 1)%nat ++ ". Title: " ++ itd.2.1 ++ nl ++
  "   Description: " ++ itd.2.2.

(** Titles and descriptions of [past]. *)
Definition past_entries : list (string * string) :=
  [ ("Urban Smart Grid Deployment",
     "Developed a city-wide smart grid to optimize energy consumption.");
    ("IoT Environmental Monitoring",
     "Built an IoT network to track air and water quality in real time.");
    ("Rural Solar Expansion",
     "Expanded solar panel installations in rural communities.") ].

(** * Properties *)

(** ** Strings *)

Section StringFacts.

Lemma append_assoc (a b c : string) : (a ++ b) ++ c = a ++ b ++ c.
Proof.
  induction a as [|x a IH]; [reflexivity|].
  change (String x ((a ++ b) ++ c) = String x (a ++ b ++ c)).
  now rewrite IH.
Qed.

Lemma append_cons (x : ascii) (a b : string) :
  String x a ++ b = String x (a ++ b).
Proof. reflexivity. Qed.

Lemma length_append (a b : string) :
  String.length (a ++ b) = (String.length a + String.length b)%nat.
Proof.
  induction a as [|x a IH]; [reflexivity|].
  rewrite append_cons. simpl. now rewrite IH.
Qed.

Lemma prefix_spec (a s : string) :
  String.prefix a s = true <-> exists post, s = a ++ post.
Proof.
  revert s. induction a as [|x a IH]; intros s.
  - split; [intros _; now exists s|intros _; now destruct s].
  - destruct s as [|y s]; simpl.
    + split; [discriminate|intros [post H]; discriminate].
    + destruct (Ascii.ascii_dec x y) as [->|Hne].
      * rewrite IH. split; intros [post H]; exists post.
        -- now rewrite append_cons, H.
        -- rewrite append_cons in H. now inversion H.
      * split; [discriminate|intros [post H]].
        rewrite append_cons in H. congruence.
Qed.

Lemma contains_spec (sub s : string) :
  contains sub s = true <-> exists pre post, s = pre ++ sub ++ post.
Proof.
  induction s as [|y s IH]; cbn [contains].
  - rewrite orb_false_r, prefix_spec. split.
    + intros [post H]. now exists "", post.
    + intros (pre & post & H). destruct pre; [now exists post|discriminate].
  - rewrite orb_true_iff, prefix_spec, IH. split.
    + intros [[post H]|(pre & post & H)].
      * now exists "", post.
      * exists (String y pre), post. now rewrite append_cons, H.
    + intros (pre & post & H). destruct pre as [|x pre].
      * left. now exists post.
      * right. rewrite append_cons in H. inversion H. now exists pre, post.
Qed.

Lemma lstrip_nl (s : string) : lstrip (nl ++ s) = lstrip s.
Proof. reflexivity. Qed.

Lemma one_space_long (s : string) :
  (4 <= String.length s)%nat -> one_space s = false.
Proof.
  destruct s as [|a [|b [|c [|d s]]]]; simpl; intros H;
    first [reflexivity | lia].
Qed.

Lemma rstrip_cons (x : ascii) (s : string) :
  rstrip (String x s) =
  if one_space (String x (rstrip s)) then "" else String x (rstrip s).
Proof. reflexivity. Qed.

Lemma rstrip_app (l t : string) :
  (3 <= String.length (rstrip t))%nat -> rstrip (l ++ t) = l ++ rstrip t.
Proof.
  intros Ht. induction l as [|x l IH]; [reflexivity|].
  rewrite !append_cons, rstrip_cons, IH.
  rewrite one_space_long; [reflexivity|].
  cbn [String.length]. rewrite length_append. lia.
Qed.

(** A prompt assembled as a line break, the instruction text (which
    itself starts with a line break), a middle part and a closing text
    loses, when stripped, exactly the two leading line breaks and the
    white space that ends the closing text. *)
Lemma strip_framed (B L T : string) :
  (forall r, lstrip (B ++ r) = B ++ r) ->
  (3 <= String.length (rstrip T))%nat ->
  strip (nl ++ (nl ++ B) ++ L ++ T) = B ++ L ++ rstrip T.
Proof.
  intros HB HT. unfold strip.
  rewrite lstrip_nl, append_assoc, lstrip_nl, HB.
  rewrite <- !append_assoc. rewrite rstrip_app by exact HT.
  reflexivity.
Qed.

End StringFacts.

(** ** The stable sort *)

Section SortFacts.
Context {A : Type} (key : A -> string).

Lemma key_le_trans (a b c : A) :
  key_le key a b -> key_le key b c -> key_le key a c.
Proof.
  unfold key_le. intros H1 H2.
  apply Is_true_true. apply Is_true_true in H1, H2.
  exact (transitivity (R := String.le) H1 H2).
Qed.

Lemma key_le_total (a b : A) :
  String.leb (key a) (key b) = false -> key_le key b a.
Proof.
  unfold key_le. intros H.
  destruct (String.leb_total (key a) (key b)) as [H'|H']; congruence.
Qed.

Lemma leb_false_ne (s t : string) : String.leb s t = false -> s <> t.
Proof.
  intros H ->. destruct (String.leb_total t t); congruence.
Qed.

Lemma insert_by_perm (x : A) (l : list A) : insert_by key x l ≡ₚ x :: l.
Proof.
  induction l as [|y l IH]; simpl; [reflexivity|].
  destruct (String.leb (key x) (key y)); [reflexivity|].
  rewrite IH. apply perm_swap.
Qed.

Lemma sorted_perm (l : list A) : sorted key l ≡ₚ l.
Proof.
  induction l as [|x l IH]; simpl; [reflexivity|].
  now rewrite insert_by_perm, IH.
Qed.

Lemma insert_by_sorted (x : A) (l : list A) :
  StronglySorted (key_le key) l ->
  StronglySorted (key_le key) (insert_by key x l).
Proof.
  induction 1 as [|y l Hl IH Hy]; simpl.
  - repeat constructor.
  - destruct (String.leb (key x) (key y)) eqn:E.
    + constructor; [now constructor|].
      constructor; [exact E|].
      eapply Forall_impl; [exact Hy|].
      intros z Hz. eapply key_le_trans; [exact E|exact Hz].
    + constructor; [exact IH|].
      rewrite insert_by_perm. constructor; [|exact Hy].
      now apply key_le_total.
Qed.

Lemma sorted_sorted (l : list A) : StronglySorted (key_le key) (sorted key l).
Proof.
  induction l as [|x l IH]; simpl; [constructor|].
  now apply insert_by_sorted.
Qed.

Lemma insert_by_stable (k : string) (x : A) (l : list A) :
  filter (fun c => key c = k) (insert_by key x l) =
  filter (fun c => key c = k) (x :: l).
Proof.
  induction l as [|y l IH]; simpl; [reflexivity|].
  destruct (String.leb (key x) (key y)) eqn:E; [reflexivity|].
  apply leb_false_ne in E.
  rewrite (filter_cons _ y), IH, !filter_cons.
  repeat case_decide; congruence.
Qed.

Lemma sorted_stable (k : string) (l : list A) :
  filter (fun c => key c = k) (sorted key l) = filter (fun c => key c = k) l.
Proof.
  induction l as [|x l IH]; simpl; [reflexivity|].
  rewrite insert_by_stable, !filter_cons, IH. reflexivity.
Qed.

End SortFacts.

(** ** List comprehensions *)

Section ComprehensionFacts.
Context {A B : Type} (f : A -> result B).

Lemma comprehension_ok (l : list A) :
  Forall (fun a => exists b, f a = inr b) l ->
  exists out, comprehension f l = inr out /\
              Forall2 (fun a b => f a = inr b) l out.
Proof.
  induction 1 as [|a l [b Hb] _ (out & Hout & Hall)]; simpl.
  - exists []. split; [reflexivity|constructor].
  - exists (b :: out). rewrite Hb, Hout. split; [reflexivity|].
    now constructor.
Qed.

Lemma comprehension_raises (P : exn -> Prop) (l : list A) :
  (forall a e, f a = inl e -> P e) ->
  Exists (fun a => exists e, f a = inl e) l ->
  exists e, P e /\ comprehension f l = inl e.
Proof.
  intros HP. induction 1 as [a l [e He]|a l _ (e & HPe & He)]; simpl.
  - exists e. rewrite He. split; [now apply (HP a)|reflexivity].
  - destruct (f a) as [e'|b] eqn:Ha.
    + exists e'. split; [now apply (HP a)|reflexivity].
    + exists e. rewrite He. now split.
Qed.

End ComprehensionFacts.

(** ** contacts.py *)

Lemma format_contact_complete (c : gmap string string) :
  complete c -> exists s, contacts.format_contact c = inr s.
Proof.
  unfold complete, contact_keys. rewrite !Forall_cons.
  intros ([n Hn] & [r Hr] & [e He] & [p Hp] & _).
  unfold contacts.format_contact, getitem. rewrite Hn, Hr, He, Hp.
  eexists. reflexivity.
Qed.

Lemma format_contact_raises (c : gmap string string) (e : exn) :
  contacts.format_contact c = inl e ->
  exists k, k ∈ contact_keys /\ c !! k = None /\ e = KeyError k.
Proof.
  unfold contacts.format_contact, getitem, contact_keys.
  destruct (c !! "name") eqn:Hn; simpl;
    [|intros [= <-]; exists "name"; repeat split; [set_solver|exact Hn]].
  destruct (c !! "role") eqn:Hr; simpl;
    [|intros [= <-]; exists "role"; repeat split; [set_solver|exact Hr]].
  destruct (c !! "email") eqn:He; simpl;
    [|intros [= <-]; exists "email"; repeat split; [set_solver|exact He]].
  destruct (c !! "phone") eqn:Hp; simpl;
    [|intros [= <-]; exists "phone"; repeat split; [set_solver|exact Hp]].
  discriminate.
Qed.

Lemma format_contact_incomplete (c : gmap string string) :
  ~ complete c -> exists e, contacts.format_contact c = inl e.
Proof.
  intros Hc. destruct (contacts.format_contact c) as [e|s] eqn:Hf.
  - now exists e.
  - exfalso. apply Hc. revert Hf.
    unfold contacts.format_contact, getitem, complete, contact_keys.
    destruct (c !! "name") eqn:Hn; [|discriminate].
    destruct (c !! "role") eqn:Hr; [|discriminate].
    destruct (c !! "email") eqn:He; [|discriminate].
    destruct (c !! "phone") eqn:Hp; [|discriminate].
    intros _. rewrite !Forall_cons, Hn, Hr, He, Hp.
    repeat split; eauto.
Qed.

(** The example of the specification, on complete contacts: sorting Bob
    and Ann by name lists Ann first. *)
Example generate_contact_list_bob_ann :
  contacts.generate_contact_list
    [ {[ "name" := "Bob"; "role" := "Engineer";
         "email" := "bob@example.com"; "phone" := "2" ]};
      {[ "name" := "Ann"; "role" := "Director";
         "email" := "ann@example.com"; "phone" := "1" ]} ] "name"
  = inr [ "Name: Ann
Role: Director
Email: ann@example.com
Phone: 1";
          "Name: Bob
Role: Engineer
Email: bob@example.com
Phone: 2" ].
Proof. vm_compute. reflexivity. Qed.

(** C8.  For every list of contacts and every sort field,
    [generate_contact_list] formats the contacts in the order of a stable
    sort by that field: the contacts formatted are a permutation of the
    input, their keys never decrease, and the contacts that share a key
    come in their input order.  The key of a contact is its value at
    [order_by], the empty string when it has none.  When every contact
    carries the four keys the formatted list is returned. *)
Theorem generate_contact_list_stable_sort
    (contacts : list (gmap string string)) (order_by : string) :
  let key := fun c : gmap string string => default "" (c !! order_by) in
  exists sorted_contacts,
    contacts.generate_contact_list contacts order_by
    = comprehension contacts.format_contact sorted_contacts /\
    sorted_contacts ≡ₚ contacts /\
    StronglySorted (key_le key) sorted_contacts /\
    (forall k, filter (fun c => key c = k) sorted_contacts =
               filter (fun c => key c = k) contacts) /\
    (Forall complete contacts ->
     exists formatted,
       contacts.generate_contact_list contacts order_by = inr formatted /\
       Forall2 (fun c s => contacts.format_contact c = inr s)
         sorted_contacts formatted).
Proof.
  intros key.
  set (sc := sorted key contacts).
  assert (Hperm : sc ≡ₚ contacts) by apply sorted_perm.
  exists sc. split; [reflexivity|]. split; [exact Hperm|].
  split; [apply (sorted_sorted key)|].
  split; [intros k; apply (sorted_stable key)|].
  intros Hall.
  apply (comprehension_ok contacts.format_contact sc).
  rewrite Hperm. eapply Forall_impl; [exact Hall|].
  intros c. apply format_contact_complete.
Qed.

Lemma generate_contact_list_stable_sort_witness :
  Forall complete sample_contacts /\
  exists formatted,
    contacts.generate_contact_list sample_contacts "name" = inr formatted /\
    length formatted = 3%nat.
Proof.
  assert (H : Forall complete sample_contacts).
  { repeat constructor; vm_compute; eauto. }
  split; [exact H|].
  destruct (generate_contact_list_stable_sort sample_contacts "name")
    as (sc & _ & Hperm & _ & _ & Hret).
  destruct (Hret H) as (formatted & Hf & Hall).
  exists formatted. split; [exact Hf|].
  rewrite <- (Forall2_length _ _ _ Hall), Hperm. reflexivity.
Defined.

(** C10.  When some contact of the input lacks one of the keys name,
    role, email, phone, [generate_contact_list] raises a [KeyError] for
    one of these keys and returns no list, whatever the sort field. *)
Theorem generate_contact_list_missing_key
    (contacts : list (gmap string string)) (order_by : string) :
  Exists (fun c => ~ complete c) contacts ->
  exists k, k ∈ contact_keys /\
            contacts.generate_contact_list contacts order_by = inl (KeyError k).
Proof.
  intros Hex. unfold contacts.generate_contact_list.
  set (key := fun x : gmap string string => get x order_by "").
  destruct (comprehension_raises contacts.format_contact
              (fun e => exists k, k ∈ contact_keys /\ e = KeyError k)
              (sorted key contacts)) as (e & (k & Hk & ->) & Hres).
  - intros c e He. destruct (format_contact_raises c e He) as (k & ? & _ & ?).
    now exists k.
  - rewrite sorted_perm. eapply Exists_impl; [exact Hex|].
    intros c. apply format_contact_incomplete.
  - now exists k.
Qed.

Lemma generate_contact_list_missing_key_witness :
  Exists (fun c => ~ complete c) incomplete_contacts /\
  exists k, k ∈ contact_keys /\
            contacts.generate_contact_list incomplete_contacts "email"
            = inl (KeyError k).
Proof.
  assert (H : Exists (fun c => ~ complete c) incomplete_contacts).
  { apply Exists_cons_tl, Exists_cons_hd. unfold complete, contact_keys.
    rewrite !Forall_cons. intros (_ & [r Hr] & _). vm_compute in Hr.
    discriminate. }
  split; [exact H|].
  exact (generate_contact_list_missing_key incomplete_contacts "email" H).
Defined.

(** ** Locales *)

Lemma supported_cases (language : string) :
  supported language ->
  lower language = "english" \/ lower language = "portuguese" \/
  lower language = "spanish".
Proof.
  unfold supported, company_profiles.SUPPORTED_LANGUAGES.
  rewrite !elem_of_cons, elem_of_nil. tauto.
Qed.

Lemma unsupported_cases (language : string) :
  ~ supported language ->
  "english" <> lower language /\ "portuguese" <> lower language /\
  "spanish" <> lower language.
Proof.
  unfold supported, company_profiles.SUPPORTED_LANGUAGES.
  rewrite !elem_of_cons, elem_of_nil. intros H.
  repeat split; intros E; apply H; rewrite <- E; tauto.
Qed.

Lemma legal_templates_cases (language : string) :
  (lower language = "english" \/ ~ supported language) /\
    legal_docs.get_language_legal_templates language = legal_docs.english
  \/ lower language = "portuguese" /\
    legal_docs.get_language_legal_templates language = legal_docs.portuguese
  \/ lower language = "spanish" /\
    legal_docs.get_language_legal_templates language = legal_docs.spanish.
Proof.
  unfold legal_docs.get_language_legal_templates.
  destruct (decide (supported language)) as [Hs|Hn].
  - destruct (supported_cases _ Hs) as [E|[E|E]]; rewrite E;
      [left; split; [now left|reflexivity]
      |right; left; split; reflexivity
      |right; right; split; reflexivity].
  - left. split; [now right|].
    destruct (unsupported_cases _ Hn) as (H1 & H2 & H3).
    unfold legal_docs.templates_table.
    rewrite !lookup_insert_ne, lookup_singleton_ne by assumption.
    reflexivity.
Qed.

Lemma profile_templates_cases (language : string) :
  (lower language = "english" \/ ~ supported language) /\
    company_profiles.get_language_profile_templates language
    = company_profiles.english
  \/ lower language = "portuguese" /\
    company_profiles.get_language_profile_templates language
    = company_profiles.portuguese
  \/ lower language = "spanish" /\
    company_profiles.get_language_profile_templates language
    = company_profiles.spanish.
Proof.
  unfold company_profiles.get_language_profile_templates.
  destruct (decide (supported language)) as [Hs|Hn].
  - destruct (supported_cases _ Hs) as [E|[E|E]]; rewrite E;
      [left; split; [now left|reflexivity]
      |right; left; split; reflexivity
      |right; right; split; reflexivity].
  - left. split; [now right|].
    destruct (unsupported_cases _ Hn) as (H1 & H2 & H3).
    unfold company_profiles.templates_table.
    rewrite !lookup_insert_ne, lookup_singleton_ne by assumption.
    reflexivity.
Qed.

(** The locale [build_prompt] of [company_profiles.py] settles on selects
    the templates of the locale it was given. *)
Lemma profile_templates_normalized (language : string) :
  company_profiles.get_language_profile_templates
    (if bool_decide (lower language ∈ company_profiles.SUPPORTED_LANGUAGES)
     then lower language else "english")
  = company_profiles.get_language_profile_templates language.
Proof.
  case_bool_decide as Hs.
  - unfold company_profiles.get_language_profile_templates.
    destruct (supported_cases _ Hs) as [E|[E|E]]; rewrite E; reflexivity.
  - destruct (profile_templates_cases language) as [[_ E]|[[E _]|[E _]]].
    + now rewrite E.
    + exfalso. apply Hs. rewrite E. set_solver.
    + exfalso. apply Hs. rewrite E. set_solver.
Qed.

Lemma legal_templates_framed (language : string) :
  framed (legal_docs.power_of_attorney
            (legal_docs.get_language_legal_templates language)) /\
  framed (legal_docs.letter_of_association
            (legal_docs.get_language_legal_templates language)).
Proof.
  destruct (legal_templates_cases language) as [[_ E]|[[_ E]|[_ E]]];
    rewrite E; split; eexists; (split; [reflexivity|intros r; reflexivity]).
Qed.

Lemma profile_templates_framed (language : string) :
  framed (company_profiles.instructions
            (company_profiles.get_language_profile_templates language)).
Proof.
  destruct (profile_templates_cases language) as [[_ E]|[[_ E]|[_ E]]];
    rewrite E; eexists; (split; [reflexivity|intros r; reflexivity]).
Qed.

(** ** Closed forms of the prompts *)

(** Settles [strip X = Y] for a prompt [X] made of a line break, a framed
    instruction text [nl ++ B], a middle part [L] and a closing text [T]. *)
Ltac strip_frame B L T HB :=
  transitivity (strip (nl ++ (nl ++ B) ++ L ++ T));
  [ f_equal; rewrite !append_assoc; reflexivity
  | rewrite (strip_framed B L T HB) by (vm_compute; lia);
    rewrite !append_assoc; reflexivity ].

Lemma poa_prompt (language project_name n0 r0 n1 r1 : string)
    (p0 p1 : gmap string string) (others : list (gmap string string)) :
  p0 !! "name" = Some n0 -> p0 !! "role" = Some r0 ->
  p1 !! "name" = Some n1 -> p1 !! "role" = Some r1 ->
  legal_docs.build_prompt "power_of_attorney" (p0 :: p1 :: others)
    project_name language
  = inr (tail (legal_docs.power_of_attorney
                 (legal_docs.get_language_legal_templates language)) ++ "

Project Name: " ++ project_name ++ "

Principal: " ++ n0 ++ " (" ++ r0 ++ ")
Attorney-in-fact: " ++ n1 ++ " (" ++ r1 ++ ")

Generate the full legal Power of Attorney document below:").
Proof.
  intros Hn0 Hr0 Hn1 Hr1. unfold legal_docs.build_prompt.
  case_decide; [|congruence].
  unfold item, getitem.
  change ((p0 :: p1 :: others) !! 0%nat) with (Some p0).
  change ((p0 :: p1 :: others) !! 1%nat) with (Some p1).
  cbn [bind ret]. rewrite Hn0. cbn [bind ret]. rewrite Hr0. cbn [bind ret].
  rewrite Hn1, Hr1. cbn [bind ret]. f_equal.
  destruct (legal_templates_framed language) as [(B & E & HB) _].
  rewrite E. change (tail (nl ++ B)) with B.
  strip_frame B ("

Project Name: " ++ project_name ++ "

Principal: " ++ n0 ++ " (" ++ r0 ++ ")
Attorney-in-fact: " ++ n1 ++ " (" ++ r1) ")

Generate the full legal Power of Attorney document below:
" HB.
Qed.

Lemma loa_prompt (language project_name : string)
    (parties : list (gmap string string)) (firms : list string) :
  comprehension firm_line parties = inr firms ->
  legal_docs.build_prompt "letter_of_association" parties project_name language
  = inr (tail (legal_docs.letter_of_association
                 (legal_docs.get_language_legal_templates language)) ++ "

Project Name: " ++ project_name ++ "

Participating Firms:
" ++ join nl firms ++ "

Generate the full legal Letter of Association document below:").
Proof.
  intros Hf. unfold legal_docs.build_prompt.
  case_decide; [congruence|]. case_decide; [|congruence].
  fold firm_line. rewrite Hf. cbn [bind ret]. f_equal.
  destruct (legal_templates_framed language) as [_ (B & E & HB)].
  rewrite E. change (tail (nl ++ B)) with B.
  strip_frame B ("

Project Name: " ++ project_name ++ "

Participating Firms:
" ++ join nl firms) "

Generate the full legal Letter of Association document below:
" HB.
Qed.

Lemma firm_lines_ok (parties : list (gmap string string)) :
  Forall has_name_role parties ->
  exists firms, comprehension firm_line parties = inr firms.
Proof.
  intros H.
  destruct (comprehension_ok firm_line parties) as (firms & Hf & _).
  - eapply Forall_impl; [exact H|].
    intros p [[n Hn] [r Hr]]. unfold firm_line, getitem.
    rewrite Hn, Hr. eexists. reflexivity.
  - now exists firms.
Qed.

Lemma profile_prompt (f : company_profiles.firm)
    (project_relevance language firm_name firm_description : string) :
  company_profiles.name f = Some firm_name ->
  company_profiles.description f = Some firm_description ->
  let tpl := company_profiles.get_language_profile_templates language in
  company_profiles.build_prompt f project_relevance language
  = inr (tail (company_profiles.instructions tpl) ++ "

Generate a company profile using the data below.

Company Name: " ++ firm_name ++ "
Description: " ++ firm_description ++ "
Certifications:
" ++ or_ (join nl (map (fun c => "- " ++ c)
                     (default [] (company_profiles.certifications f))))
         "- None provided" ++ "
Key Achievements:
" ++ or_ (join nl (map (fun a => "- " ++ a)
                     (default [] (company_profiles.achievements f))))
         "- None provided" ++ "
Relevance to Project: " ++ project_relevance ++ "

" ++ company_profiles.example tpl ++ "

Now produce the tailored company profile.").
Proof.
  intros Hn Hd tpl. unfold company_profiles.build_prompt.
  rewrite profile_templates_normalized. fold tpl.
  rewrite Hn, Hd. cbn [company_profiles.firm_getitem bind ret]. f_equal.
  destruct (profile_templates_framed language) as (B & E & HB).
  fold tpl in E. rewrite E. change (tail (nl ++ B)) with B.
  strip_frame B ("

Generate a company profile using the data below.

Company Name: " ++ firm_name ++ "
Description: " ++ firm_description ++ "
Certifications:
" ++ or_ (join nl (map (fun c => "- " ++ c)
                     (default [] (company_profiles.certifications f))))
         "- None provided" ++ "
Key Achievements:
" ++ or_ (join nl (map (fun a => "- " ++ a)
                     (default [] (company_profiles.achievements f))))
         "- None provided" ++ "
Relevance to Project: " ++ project_relevance ++ "

" ++ company_profiles.example tpl) "

Now produce the tailored company profile.
" HB.
Qed.

(** ** Locale fallback *)

Example empty_locale_unsupported : ~ supported "".
Proof.
  unfold supported, company_profiles.SUPPORTED_LANGUAGES.
  change (lower "") with "".
  rewrite !elem_of_cons, elem_of_nil. intuition discriminate.
Qed.

Example upper_case_locale_supported : supported "PORTUGUESE".
Proof.
  unfold supported, company_profiles.SUPPORTED_LANGUAGES.
  change (lower "PORTUGUESE") with "portuguese".
  rewrite !elem_of_cons. tauto.
Qed.

(** C3.  For a locale string that is not supported (the empty string is
    one), the prompt builders of the legal documents, whatever the
    document type, and of the company profile behave as for the locale
    english: same prompt, or same exception, for every payload. *)
Theorem unsupported_locale_as_english
    (language doc_type project_name project_relevance : string)
    (parties : list (gmap string string)) (f : company_profiles.firm) :
  ~ supported language ->
  legal_docs.build_prompt doc_type parties project_name language
  = legal_docs.build_prompt doc_type parties project_name "english"
  /\
  company_profiles.build_prompt f project_relevance language
  = company_profiles.build_prompt f project_relevance "english".
Proof.
  intros Hn. split.
  - unfold legal_docs.build_prompt.
    destruct (legal_templates_cases language) as [[_ E]|[[E _]|[E _]]].
    + rewrite E. reflexivity.
    + exfalso. apply Hn. unfold supported. rewrite E. set_solver.
    + exfalso. apply Hn. unfold supported. rewrite E. set_solver.
  - unfold company_profiles.build_prompt.
    rewrite !profile_templates_normalized.
    destruct (profile_templates_cases language) as [[_ E]|[[E _]|[E _]]].
    + rewrite E. reflexivity.
    + exfalso. apply Hn. unfold supported. rewrite E. set_solver.
    + exfalso. apply Hn. unfold supported. rewrite E. set_solver.
Qed.

Lemma unsupported_locale_as_english_witness :
  ~ supported "" /\
  legal_docs.build_prompt "power_of_attorney" power_of_attorney_parties
    "Renewable Energy Project" ""
  = legal_docs.build_prompt "power_of_attorney" power_of_attorney_parties
      "Renewable Energy Project" "english"
  /\
  company_profiles.build_prompt sample_firm "Smart City" ""
  = company_profiles.build_prompt sample_firm "Smart City" "english".
Proof.
  assert (H : ~ supported "").
  { unfold supported, company_profiles.SUPPORTED_LANGUAGES.
    change (lower "") with "".
    rewrite !elem_of_cons, elem_of_nil. intuition discriminate. }
  split; [exact H|].
  exact (unsupported_locale_as_english "" "power_of_attorney"
           "Renewable Energy Project" "Smart City"
           power_of_attorney_parties sample_firm H).
Defined.

(** ** Instructions in the prompt *)

(** C4, as stated, fails: the instruction text of the table starts with a
    line break that [strip] removes from the prompt.  On the power of
    attorney of the manual test, in english, the text is not a substring
    of the prompt. *)
Lemma instructions_not_verbatim :
  exists prompt,
    legal_docs.build_prompt "power_of_attorney" power_of_attorney_parties
      "Renewable Energy Project" "english" = inr prompt /\
    ~ exists pre post,
        prompt = pre ++ legal_docs.power_of_attorney legal_docs.english ++ post.
Proof.
  eexists. split; [vm_compute; reflexivity|].
  rewrite <- contains_spec. vm_compute. discriminate.
Qed.

(** C4, amended.  For a supported locale, the prompt of each of the
    three document types starts with the instruction text the table holds
    for that type and locale, less the line break this text starts with.
    Each type has its own condition on the payload, the one under which
    its prompt is built: two parties at least, the first two with name and
    role, for the power of attorney; parties with name and role, any
    number of them, for the letter of association; a firm with name and
    description for the company profile. *)
Theorem prompt_starts_with_instructions
    (language project_name project_relevance : string)
    (poa_parties loa_parties : list (gmap string string))
    (f : company_profiles.firm) :
  supported language ->
  exists legal profile,
    legal_docs.templates_table !! lower language = Some legal /\
    company_profiles.templates_table !! lower language = Some profile /\
    ((2 <= length poa_parties)%nat ->
     Forall has_name_role (take 2 poa_parties) ->
     exists body rest,
       legal_docs.power_of_attorney legal = nl ++ body /\
       legal_docs.build_prompt "power_of_attorney" poa_parties project_name
         language
       = inr (body ++ rest)) /\
    (Forall has_name_role loa_parties ->
     exists body rest,
       legal_docs.letter_of_association legal = nl ++ body /\
       legal_docs.build_prompt "letter_of_association" loa_parties
         project_name language
       = inr (body ++ rest)) /\
    (is_Some (company_profiles.name f) ->
     is_Some (company_profiles.description f) ->
     exists body rest,
       company_profiles.instructions profile = nl ++ body /\
       company_profiles.build_prompt f project_relevance language
       = inr (body ++ rest)).
Proof.
  intros Hs.
  exists (legal_docs.get_language_legal_templates language),
         (company_profiles.get_language_profile_templates language).
  split; [|split].
  - unfold legal_docs.get_language_legal_templates.
    destruct (supported_cases _ Hs) as [E|[E|E]]; rewrite E; reflexivity.
  - unfold company_profiles.get_language_profile_templates.
    destruct (supported_cases _ Hs) as [E|[E|E]]; rewrite E; reflexivity.
  - destruct (legal_templates_framed language)
      as [(B1 & E1 & _) (B2 & E2 & _)].
    destruct (profile_templates_framed language) as (B3 & E3 & _).
    split; [|split].
    + intros Hlen Hall.
      destruct poa_parties as [|p0 [|p1 others]]; simpl in Hlen; try lia.
      cbn [take] in Hall.
      apply Forall_cons in Hall as [[[n0 Hn0] [r0 Hr0]] Hall].
      apply Forall_cons in Hall as [[[n1 Hn1] [r1 Hr1]] _].
      exists B1. eexists. split; [exact E1|].
      rewrite (poa_prompt _ _ _ _ _ _ _ _ _ Hn0 Hr0 Hn1 Hr1), E1.
      reflexivity.
    + intros Hall. destruct (firm_lines_ok _ Hall) as [firms Hf].
      exists B2. eexists. split; [exact E2|].
      rewrite (loa_prompt _ _ _ _ Hf), E2. reflexivity.
    + intros [fname Hname] [fdesc Hdesc].
      exists B3. eexists. split; [exact E3|].
      rewrite (profile_prompt _ _ _ _ _ Hname Hdesc). cbv zeta.
      rewrite E3. reflexivity.
Qed.

Lemma prompt_starts_with_instructions_witness :
  supported "spanish" /\
  (2 <= length parties_with_blank_third)%nat /\
  Forall has_name_role (take 2 parties_with_blank_third) /\
  Forall has_name_role single_party /\
  is_Some (company_profiles.name sample_firm) /\
  is_Some (company_profiles.description sample_firm) /\
  exists legal profile,
    legal_docs.templates_table !! lower "spanish" = Some legal /\
    company_profiles.templates_table !! lower "spanish" = Some profile /\
    (exists body rest,
       legal_docs.power_of_attorney legal = nl ++ body /\
       legal_docs.build_prompt "power_of_attorney"
         parties_with_blank_third "Renewable Energy Project"
         "spanish"
       = inr (body ++ rest)) /\
    (exists body rest,
       legal_docs.letter_of_association legal = nl ++ body /\
       legal_docs.build_prompt "letter_of_association" single_party
         "Renewable Energy Project" "spanish"
       = inr (body ++ rest)) /\
    (exists body rest,
       company_profiles.instructions profile = nl ++ body /\
       company_profiles.build_prompt sample_firm "Smart City" "spanish"
       = inr (body ++ rest)).
Proof.
  assert (H1 : supported "spanish").
  { unfold supported, company_profiles.SUPPORTED_LANGUAGES.
    change (lower "spanish") with "spanish". rewrite !elem_of_cons. tauto. }
  assert (H2 : (2 <= length parties_with_blank_third)%nat).
  { simpl. lia. }
  assert (H3 : Forall has_name_role
                 (take 2 parties_with_blank_third)).
  { repeat constructor; vm_compute; eauto. }
  assert (H4 : Forall has_name_role single_party).
  { repeat constructor; vm_compute; eauto. }
  assert (H5 : is_Some (company_profiles.name sample_firm)).
  { simpl. eauto. }
  assert (H6 : is_Some (company_profiles.description sample_firm)).
  { simpl. eauto. }
  repeat (split; [assumption|]).
  destruct (prompt_starts_with_instructions "spanish"
              "Renewable Energy Project" "Smart City"
              parties_with_blank_third single_party sample_firm H1)
    as (legal & profile & E1 & E2 & Hpoa & Hloa & Hprofile).
  exists legal, profile.
  split; [exact E1|]. split; [exact E2|].
  split; [exact (Hpoa H2 H3)|].
  split; [exact (Hloa H4)|exact (Hprofile H5 H6)].
Defined.

(** ** Power of attorney: the parties used *)

(** C5.  With three parties, the power-of-attorney prompt is the prompt
    built from the first two alone: it names the first as principal and
    the second as attorney-in-fact, and the name and the role of the third
    occur nowhere in it, provided they do not occur in the text built from
    the rest of the input. *)
Theorem power_of_attorney_ignores_third_party
    (language project_name n0 r0 n1 r1 n2 r2 other : string)
    (p0 p1 p2 : gmap string string) :
  p0 !! "name" = Some n0 -> p0 !! "role" = Some r0 ->
  p1 !! "name" = Some n1 -> p1 !! "role" = Some r1 ->
  p2 !! "name" = Some n2 -> p2 !! "role" = Some r2 ->
  legal_docs.build_prompt "power_of_attorney" [p0; p1] project_name language
  = inr other ->
  contains n2 other = false ->
  contains r2 other = false ->
  exists prompt,
    legal_docs.build_prompt "power_of_attorney" [p0; p1; p2] project_name
      language = inr prompt /\
    prompt = other /\
    contains ("Principal: " ++ n0 ++ " (" ++ r0 ++ ")") prompt = true /\
    contains ("Attorney-in-fact: " ++ n1 ++ " (" ++ r1 ++ ")") prompt = true /\
    contains n2 prompt = false /\
    contains r2 prompt = false.
Proof.
  intros Hn0 Hr0 Hn1 Hr1 _ _ Hother Hn2 Hr2.
  rewrite (poa_prompt _ _ _ _ _ _ _ _ [] Hn0 Hr0 Hn1 Hr1) in Hother.
  injection Hother as <-.
  eexists. split; [apply (poa_prompt _ _ _ _ _ _ _ _ [p2] Hn0 Hr0 Hn1 Hr1)|].
  split; [reflexivity|]. split; [|split; [|split; assumption]].
  - apply contains_spec.
    exists (tail (legal_docs.power_of_attorney
              (legal_docs.get_language_legal_templates language)) ++ "

Project Name: " ++ project_name ++ "

"), ("
Attorney-in-fact: " ++ n1 ++ " (" ++ r1 ++ ")

Generate the full legal Power of Attorney document below:").
    rewrite !append_assoc. reflexivity.
  - apply contains_spec.
    exists (tail (legal_docs.power_of_attorney
              (legal_docs.get_language_legal_templates language)) ++ "

Project Name: " ++ project_name ++ "

Principal: " ++ n0 ++ " (" ++ r0 ++ ")
"), ("

Generate the full legal Power of Attorney document below:").
    rewrite !append_assoc. reflexivity.
Qed.

Lemma power_of_attorney_ignores_third_party_witness :
  exists other,
    john_doe !! "name" = Some "John Doe" /\
    john_doe !! "role" = Some "Principal" /\
    jane_smith !! "name" = Some "Jane Smith" /\
    jane_smith !! "role" = Some "Attorney-in-fact" /\
    gamma_solutions !! "name" = Some "Gamma Solutions" /\
    gamma_solutions !! "role" = Some "Observer" /\
    legal_docs.build_prompt "power_of_attorney" [john_doe; jane_smith]
      "Renewable Energy Project" "english" = inr other /\
    contains "Gamma Solutions" other = false /\
    contains "Observer" other = false /\
    exists prompt,
      legal_docs.build_prompt "power_of_attorney"
        [john_doe; jane_smith; gamma_solutions]
        "Renewable Energy Project" "english" = inr prompt /\
      prompt = other /\
      contains ("Principal: " ++ "John Doe" ++ " (" ++ "Principal" ++ ")")
        prompt = true /\
      contains
        ("Attorney-in-fact: " ++ "Jane Smith" ++ " (" ++ "Attorney-in-fact"
         ++ ")") prompt = true /\
      contains "Gamma Solutions" prompt = false /\
      contains "Observer" prompt = false.
Proof.
  eexists.
  assert (H1 : john_doe !! "name" = Some "John Doe") by reflexivity.
  assert (H2 : john_doe !! "role" = Some "Principal") by reflexivity.
  assert (H3 : jane_smith !! "name" = Some "Jane Smith") by reflexivity.
  assert (H4 : jane_smith !! "role" = Some "Attorney-in-fact") by reflexivity.
  assert (H5 : gamma_solutions !! "name" = Some "Gamma Solutions")
    by reflexivity.
  assert (H6 : gamma_solutions !! "role" = Some "Observer") by reflexivity.
  pose proof (poa_prompt "english" "Renewable Energy Project" _ _ _ _
                john_doe jane_smith [] H1 H2 H3 H4) as H7.
  assert (H8 : contains "Gamma Solutions"
                 (tail (legal_docs.power_of_attorney
                    (legal_docs.get_language_legal_templates "english")) ++ "

Project Name: " ++ "Renewable Energy Project" ++ "

Principal: " ++ "John Doe" ++ " (" ++ "Principal" ++ ")
Attorney-in-fact: " ++ "Jane Smith" ++ " (" ++ "Attorney-in-fact" ++ ")

Generate the full legal Power of Attorney document below:") = false)
    by (vm_compute; reflexivity).
  assert (H9 : contains "Observer"
                 (tail (legal_docs.power_of_attorney
                    (legal_docs.get_language_legal_templates "english")) ++ "

Project Name: " ++ "Renewable Energy Project" ++ "

Principal: " ++ "John Doe" ++ " (" ++ "Principal" ++ ")
Attorney-in-fact: " ++ "Jane Smith" ++ " (" ++ "Attorney-in-fact" ++ ")

Generate the full legal Power of Attorney document below:") = false)
    by (vm_compute; reflexivity).
  repeat (split; [eassumption|]).
  exact (power_of_attorney_ignores_third_party "english"
           "Renewable Energy Project" _ _ _ _ _ _ _
           john_doe jane_smith gamma_solutions H1 H2 H3 H4 H5 H6 H7 H8 H9).
Defined.

(** ** Company profile: certifications and achievements *)

Lemma or_section (items : list string) :
  or_ (join nl (map (fun item => "- " ++ item) items)) "- None provided"
  = join nl (section_lines items).
Proof.
  destruct items as [|a [|b items]]; reflexivity.
Qed.

Lemma section_not_empty (items : list string) :
  join nl (section_lines items) <> "".
Proof.
  destruct items as [|a [|b items]]; discriminate.
Qed.

(** C9.  In the company-profile prompt the line of the label
    Certifications is followed by the lines of the certifications and
    the line of the label Key Achievements by those of the achievements:
    one line, a dash and the item, per element in input order, and for an
    empty list (or an absent key) the single line of the placeholder.
    Neither section is ever empty. *)
Theorem profile_sections_never_empty
    (f : company_profiles.firm)
    (project_relevance language firm_name firm_description : string) :
  company_profiles.name f = Some firm_name ->
  company_profiles.description f = Some firm_description ->
  let certs := default [] (company_profiles.certifications f) in
  let achs := default [] (company_profiles.achievements f) in
  exists head rest,
    company_profiles.build_prompt f project_relevance language
    = inr (head ++ "Certifications:" ++ nl ++
           join nl (section_lines certs) ++ nl ++
           "Key Achievements:" ++ nl ++
           join nl (section_lines achs) ++ nl ++
           "Relevance to Project: " ++ rest) /\
    join nl (section_lines certs) <> "" /\
    join nl (section_lines achs) <> "" /\
    (certs = [] -> join nl (section_lines certs) = "- None provided") /\
    (achs = [] -> join nl (section_lines achs) = "- None provided") /\
    (certs <> [] -> section_lines certs = map (fun c => "- " ++ c) certs) /\
    (achs <> [] -> section_lines achs = map (fun a => "- " ++ a) achs).
Proof.
  intros Hn Hd certs achs.
  eexists. eexists. split; [|split; [|split; [|split; [|split; [|split]]]]].
  - rewrite (profile_prompt _ _ _ _ _ Hn Hd). cbv zeta.
    rewrite !or_section. fold certs achs. f_equal.
    instantiate (1 := project_relevance ++ "

" ++ company_profiles.example
       (company_profiles.get_language_profile_templates language) ++ "

Now produce the tailored company profile.").
    instantiate (1 := tail (company_profiles.instructions
       (company_profiles.get_language_profile_templates language)) ++ "

Generate a company profile using the data below.

Company Name: " ++ firm_name ++ "
Description: " ++ firm_description ++ "
").
    rewrite !append_assoc. reflexivity.
  - apply section_not_empty.
  - apply section_not_empty.
  - now intros ->.
  - now intros ->.
  - destruct certs; [congruence|reflexivity].
  - destruct achs; [congruence|reflexivity].
Qed.

Lemma profile_sections_never_empty_witness :
  company_profiles.name bare_firm = Some "Alpha Consulting" /\
  company_profiles.description bare_firm = Some "An engineering firm." /\
  exists head rest,
    company_profiles.build_prompt bare_firm "Smart City" "portuguese"
    = inr (head ++ "Certifications:" ++ nl ++ "- None provided" ++ nl ++
           "Key Achievements:" ++ nl ++ "- None provided" ++ nl ++
           "Relevance to Project: " ++ rest).
Proof.
  split; [reflexivity|]. split; [reflexivity|].
  destruct (profile_sections_never_empty bare_firm "Smart City" "portuguese"
              "Alpha Consulting" "An engineering firm." eq_refl eq_refl)
    as (head & rest & H & _).
  exists head, rest. exact H.
Defined.

(** ** Facades and providers *)

(** C6.  A power of attorney asked for fewer than two parties, and a
    document type that is neither of the two known ones, make
    [generate_legal_document] raise: no text is returned, and the log of
    provider calls is the one the call started with. *)
Theorem bad_input_raises_before_provider
    (env : provider) (doc_type project_name language : string)
    (parties : list (gmap string string)) (h : list call) :
  doc_type = "power_of_attorney" /\ (length parties < 2)%nat \/
  doc_type <> "power_of_attorney" /\ doc_type <> "letter_of_association" ->
  exists e,
    legal_docs.generate_legal_document env doc_type parties project_name
      language h = (inl e, h) /\
    (doc_type = "power_of_attorney" ->
       e = IndexError \/ e = KeyError "name" \/ e = KeyError "role") /\
    (doc_type <> "power_of_attorney" ->
       e = ValueError "Unsupported document type").
Proof.
  intros Hbad.
  assert (Hb : exists e,
    legal_docs.build_prompt doc_type parties project_name language = inl e /\
    (doc_type = "power_of_attorney" ->
       e = IndexError \/ e = KeyError "name" \/ e = KeyError "role") /\
    (doc_type <> "power_of_attorney" ->
       e = ValueError "Unsupported document type")).
  { unfold legal_docs.build_prompt.
    destruct Hbad as [[-> Hlen]|[H1 H2]].
    - case_decide; [|congruence].
      destruct parties as [|p0 [|p1 others]]; simpl in Hlen; try lia.
      + exists IndexError. split; [reflexivity|]. split; [tauto|congruence].
      + unfold item, getitem.
        change ([p0] !! 0%nat) with (Some p0).
        change ([p0] !! 1%nat) with (@None (gmap string string)).
        cbn [bind ret].
        destruct (p0 !! "name"); cbn [bind ret raise];
          [|eexists; split; [reflexivity|split; [tauto|congruence]]].
        destruct (p0 !! "role"); cbn [bind ret raise];
          eexists; (split; [reflexivity|split; [tauto|congruence]]).
    - do 2 (case_decide; [congruence|]).
      eexists. split; [reflexivity|]. split; [congruence|reflexivity]. }
  destruct Hb as (e & Hb & He). exists e. split; [|exact He].
  unfold legal_docs.generate_legal_document, mbind, lift.
  rewrite Hb. reflexivity.
Qed.

Lemma bad_input_raises_before_provider_witness :
  ("power_of_attorney" = "power_of_attorney" /\
   (length [john_doe] < 2)%nat \/
   "power_of_attorney" <> "power_of_attorney" /\
   "power_of_attorney" <> "letter_of_association") /\
  exists e,
    legal_docs.generate_legal_document (fun _ _ => inr "text")
      "power_of_attorney" [john_doe] "Renewable Energy Project" "english" []
    = (inl e, []) /\
    ("power_of_attorney" = "power_of_attorney" ->
       e = IndexError \/ e = KeyError "name" \/ e = KeyError "role") /\
    ("power_of_attorney" <> "power_of_attorney" ->
       e = ValueError "Unsupported document type").
Proof.
  assert (H : "power_of_attorney" = "power_of_attorney" /\
              (length [john_doe] < 2)%nat \/
              "power_of_attorney" <> "power_of_attorney" /\
              "power_of_attorney" <> "letter_of_association").
  { left. split; [reflexivity|simpl; lia]. }
  split; [exact H|].
  exact (bad_input_raises_before_provider (fun _ _ => inr "text")
           "power_of_attorney" "Renewable Energy Project" "english"
           [john_doe] [] H).
Defined.

(** C7.  When the provider raises on the request a facade sends it,
    [generate_legal_document] and [generate_company_profile] return a text
    that carries the description of the failure, and
    [generate_project_list] raises and returns nothing: a [RuntimeError]
    that carries the description, or, when the provider client raised a
    [JSONDecodeError], the error of reading the unassigned [content].
    Each facade stands under the failure of its own request only, so the
    statement covers a provider that is down for one service and answers
    on the other. *)
Theorem provider_failure_handling
    (env : provider) (je_text : string -> string) :
  (forall (doc_type project_name language prompt : string)
          (parties : list (gmap string string)) (h : list call) (e : exn),
     legal_docs.build_prompt doc_type parties project_name language
     = inr prompt ->
     env h (legal_docs.request prompt) = inl e ->
     legal_docs.generate_legal_document env doc_type parties project_name
       language h
     = (inr ("Error generating legal document: " ++ str e),
        (h ++ [legal_docs.request prompt])%list))
  /\
  (forall (f : company_profiles.firm)
          (project_relevance language prompt : string)
          (h : list call) (e : exn),
     company_profiles.build_prompt f project_relevance language
     = inr prompt ->
     env h (company_profiles.request prompt) = inl e ->
     company_profiles.generate_company_profile env f project_relevance
       language h
     = (inr ("Error generating company profile: " ++ str e),
        (h ++ [company_profiles.request prompt])%list))
  /\
  (forall (current_project prompt : string)
          (past_projects : list (gmap string string))
          (h : list call) (e : exn),
     project_lists.build_prompt current_project past_projects = inr prompt ->
     env h (project_lists.request prompt) = inl e ->
     project_lists.generate_project_list env je_text current_project
       past_projects h
     = (inl match e with
            | JSONDecodeError _ => UnboundLocalError "content"
            | _ => RuntimeError ("OpenAI API error: " ++ str e)
            end,
        (h ++ [project_lists.request prompt])%list)).
Proof.
  split; [|split].
  - intros doc_type project_name language prompt parties h e Hb He.
    unfold legal_docs.generate_legal_document, mbind, lift, try_except,
      invoke, mret.
    rewrite Hb, He. reflexivity.
  - intros f project_relevance language prompt h e Hb He.
    unfold company_profiles.generate_company_profile, mbind, lift,
      try_except, invoke, mret.
    rewrite Hb, He. reflexivity.
  - intros current_project prompt past_projects h e Hb He.
    unfold project_lists.generate_project_list, mbind, lift, invoke.
    rewrite Hb, He. unfold project_lists.handler, mraise.
    destruct e; reflexivity.
Qed.

Lemma provider_failure_handling_witness :
  exists legal_prompt profile_prompt evaluation_prompt,
    (legal_docs.build_prompt "letter_of_association"
       letter_of_association_parties "Renewable Energy Project" "english"
     = inr legal_prompt /\
     gemini_down two_evaluations [] (legal_docs.request legal_prompt)
     = inl connection_error /\
     legal_docs.generate_legal_document (gemini_down two_evaluations)
       "letter_of_association" letter_of_association_parties
       "Renewable Energy Project" "english" []
     = (inr ("Error generating legal document: " ++ str connection_error),
        ([] ++ [legal_docs.request legal_prompt])%list))
    /\
    (company_profiles.build_prompt sample_firm "Smart City" "english"
     = inr profile_prompt /\
     openai_down "text" [] (company_profiles.request profile_prompt)
     = inl connection_error /\
     company_profiles.generate_company_profile (openai_down "text")
       sample_firm "Smart City" "english" []
     = (inr ("Error generating company profile: " ++ str connection_error),
        ([] ++ [company_profiles.request profile_prompt])%list))
    /\
    (project_lists.build_prompt current past = inr evaluation_prompt /\
     openai_down "text" [] (project_lists.request evaluation_prompt)
     = inl connection_error /\
     project_lists.generate_project_list (openai_down "text") decoder_text
       current past []
     = (inl (RuntimeError ("OpenAI API error: " ++ str connection_error)),
        ([] ++ [project_lists.request evaluation_prompt])%list)).
Proof.
  do 3 eexists.
  assert (H1 : legal_docs.build_prompt "letter_of_association"
                 letter_of_association_parties "Renewable Energy Project"
                 "english" = inr _) by (vm_compute; reflexivity).
  assert (H3 : company_profiles.build_prompt sample_firm "Smart City"
                 "english" = inr _) by (vm_compute; reflexivity).
  assert (H5 : project_lists.build_prompt current past = inr _)
    by (vm_compute; reflexivity).
  split; [|split].
  - split; [exact H1|]. split; [reflexivity|].
    exact (proj1 (provider_failure_handling (gemini_down two_evaluations)
                    decoder_text) _ _ _ _ _ [] _ H1 eq_refl).
  - split; [exact H3|]. split; [reflexivity|].
    exact (proj1 (proj2 (provider_failure_handling (openai_down "text")
                           decoder_text)) _ _ _ _ [] _ H3 eq_refl).
  - split; [exact H5|]. split; [reflexivity|].
    exact (proj2 (proj2 (provider_failure_handling (openai_down "text")
                           decoder_text)) _ _ _ [] _ H5 eq_refl).
Defined.

(** ** The project evaluation *)

(** The decoder on small documents. *)
Example loads_nested :
  json.loads ("  {" ++ q "a" ++ ": [1, -20, true, null, " ++ q "x" ++ "], "
              ++ q "a" ++ ": {}}  ")
  = Some (json.Object
            [("a", json.Array [json.Int 1; json.Int (-20); json.Bool true;
                               json.Null; json.Str "x"]);
             ("a", json.Object [])]).
Proof. vm_compute. reflexivity. Qed.

Example member_takes_last :
  json.member "a" (json.Object [("a", json.Int 1); ("a", json.Int 2)])
  = Some (json.Int 2).
Proof. reflexivity. Qed.

Example loads_rejects :
  json.loads "" = None /\ json.loads "[1,]" = None /\
  json.loads "[01]" = None /\ json.loads "[1] 2" = None /\
  json.loads "{a: 1}" = None /\ json.loads "Sure! [1]" = None.
Proof. vm_compute. repeat split. Qed.

(** C1, as stated, fails: three past projects are supplied, the provider
    answers with one evaluation, of score 150, and no recommendation, and
    the call succeeds with just that. *)
Lemma evaluation_result_not_validated :
  exists data h' ev,
    project_lists.generate_project_list (answering short_response)
      decoder_text current past [] = (inr data, h') /\
    length past = 3%nat /\
    json.member "evaluations" data = Some (json.Array [ev]) /\
    json.member "score" ev = Some (json.Int 150) /\
    json.member "additional_recommendations" data = Some (json.Array []).
Proof.
  do 3 eexists. split; [vm_compute; reflexivity|].
  repeat split; reflexivity.
Qed.

(** C1, amended.  A call of [generate_project_list] is successful exactly
    when the provider, called once on the prompt built from the input,
    answers with a text whose stripped form is a JSON document, and the
    result is then the value of that document, as it is: nothing about
    the number of evaluations, the scores or the number of
    recommendations is checked. *)
Theorem project_list_returns_decoded_response
    (env : provider) (je_text : string -> string) (current_project : string)
    (past_projects : list (gmap string string)) (h h' : list call)
    (data : json.value) :
  project_lists.generate_project_list env je_text current_project
    past_projects h = (inr data, h') <->
  exists prompt text,
    project_lists.build_prompt current_project past_projects = inr prompt /\
    env h (project_lists.request prompt) = inr text /\
    json.loads (strip text) = Some data /\
    h' = (h ++ [project_lists.request prompt])%list.
Proof.
  unfold project_lists.generate_project_list, mbind, lift, invoke. split.
  - destruct (project_lists.build_prompt current_project past_projects)
      as [e|prompt]; [discriminate|].
    destruct (env h (project_lists.request prompt)) as [e|text] eqn:Henv.
    + unfold project_lists.handler, mraise. destruct e; discriminate.
    + destruct (json.loads (strip text)) as [d|] eqn:Hd.
      * intros [= <- <-]. exists prompt, text. repeat split; assumption.
      * unfold project_lists.handler, mraise. discriminate.
  - intros (prompt & text & -> & -> & -> & ->). reflexivity.
Qed.

Lemma project_list_returns_decoded_response_witness :
  exists data h',
    project_lists.generate_project_list (answering two_evaluations)
      decoder_text current past [] = (inr data, h') /\
    exists prompt text,
      project_lists.build_prompt current past = inr prompt /\
      answering two_evaluations [] (project_lists.request prompt) = inr text /\
      json.loads (strip text) = Some data /\
      h' = ([] ++ [project_lists.request prompt])%list.
Proof.
  do 2 eexists.
  assert (H : project_lists.generate_project_list (answering two_evaluations)
                decoder_text current past [] = (inr _, _))
    by (vm_compute; reflexivity).
  split; [exact H|].
  exact (proj1 (project_list_returns_decoded_response _ _ _ _ _ _ _) H).
Defined.

(** C2, as stated, fails in its second part: three past projects are
    supplied, the provider answers with two evaluations, and the call
    returns them instead of raising. *)
Lemma evaluation_count_not_checked :
  exists data h' ev1 ev2,
    project_lists.generate_project_list (answering two_evaluations)
      decoder_text current past [] = (inr data, h') /\
    length past = 3%nat /\
    json.member "evaluations" data = Some (json.Array [ev1; ev2]).
Proof.
  do 4 eexists. split; [vm_compute; reflexivity|].
  split; reflexivity.
Qed.

(** The decoder is the library's: it takes the constants [NaN],
    [Infinity] and [-Infinity], which the JSON grammar does not have, so a
    response that is one of them, or holds one, is returned as a value. *)
Example non_standard_constant_returned :
  (exists h',
     project_lists.generate_project_list (answering "NaN") decoder_text
       current past [] = (inr (json.Float "NaN"), h')) /\
  (exists data h',
     project_lists.generate_project_list
       (answering ("{" ++ q "score" ++ ": NaN}")) decoder_text current past []
     = (inr data, h') /\
     json.member "score" data = Some (json.Float "NaN")).
Proof.
  split; [eexists; vm_compute; reflexivity|].
  do 2 eexists. split; vm_compute; reflexivity.
Qed.

(** C2, amended.  When [json.loads] rejects the response text of the
    provider, stripped, [generate_project_list] raises a [ValueError] that
    carries the message of the decoder and the stripped text, and returns
    nothing. *)
Theorem invalid_json_raises_value_error
    (env : provider) (je_text : string -> string) (current_project : string)
    (past_projects : list (gmap string string)) (h : list call)
    (prompt text : string) :
  project_lists.build_prompt current_project past_projects = inr prompt ->
  env h (project_lists.request prompt) = inr text ->
  json.loads (strip text) = None ->
  project_lists.generate_project_list env je_text current_project
    past_projects h
  = (inl (ValueError
            ("Failed to parse JSON from model response: " ++
             je_text (strip text) ++ nl ++ "Raw response:" ++ nl ++
             strip text)),
     (h ++ [project_lists.request prompt])%list).
Proof.
  intros Hb Henv Hd.
  unfold project_lists.generate_project_list, mbind, lift, invoke.
  rewrite Hb, Henv, Hd. reflexivity.
Qed.

Lemma invalid_json_raises_value_error_witness :
  exists prompt,
    let text := "Here are the scores you asked for: 70, 85, 10." in
    project_lists.build_prompt current past = inr prompt /\
    answering text [] (project_lists.request prompt) = inr text /\
    json.loads (strip text) = None /\
    project_lists.generate_project_list (answering text) decoder_text
      current past []
    = (inl (ValueError
              ("Failed to parse JSON from model response: " ++
               decoder_text (strip text) ++ nl ++ "Raw response:" ++ nl ++
               strip text)),
       ([] ++ [project_lists.request prompt])%list).
Proof.
  eexists. intros text.
  assert (H1 : project_lists.build_prompt current past = inr _)
    by (vm_compute; reflexivity).
  assert (H3 : json.loads (strip text) = None) by (vm_compute; reflexivity).
  split; [exact H1|]. split; [reflexivity|]. split; [exact H3|].
  exact (invalid_json_raises_value_error (answering text) decoder_text
           current past [] _ text H1 eq_refl H3).
Defined.

(** * Further properties *)

Section SortMore.

Context {A : Type} (key : A -> string).

Lemma insert_by_least (x : A) (l : list A) :
  Forall (key_le key x) l -> insert_by key x l = x :: l.
Proof.
  destruct 1 as [|y l Hy _]; simpl; [reflexivity|].
  unfold key_le in Hy. now rewrite Hy.
Qed.

Lemma sorted_fixpoint (l : list A) :
  StronglySorted (key_le key) l -> sorted key l = l.
Proof.
  induction 1 as [|x l _ IH Hx]; simpl; [reflexivity|].
  rewrite IH. now apply insert_by_least.
Qed.

Lemma key_le_refl (a : A) : key_le key a a.
Proof.
  unfold key_le. destruct (String.leb_total (key a) (key a)); assumption.
Qed.

Lemma same_key_sorted (k : string) (l : list A) :
  Forall (fun a => key a = k) l -> StronglySorted (key_le key) l.
Proof.
  induction 1 as [|x l Hx Hl IH]; constructor; [exact IH|].
  eapply Forall_impl; [exact Hl|].
  intros y Hy. unfold key_le. rewrite Hx, Hy.
  destruct (String.leb_total k k); assumption.
Qed.

Lemma key_le_antisym (a b : A) :
  key_le key a b -> key_le key b a -> key a = key b.
Proof. unfold key_le. apply String.leb_antisym. Qed.

(** Two sorted lists with the same elements, no two of them of one key,
    are equal. *)
Lemma sorted_unique (l1 l2 : list A) :
  StronglySorted (key_le key) l1 -> StronglySorted (key_le key) l2 ->
  l1 ≡ₚ l2 -> NoDup (key <$> l1) -> l1 = l2.
Proof.
  intros H1. revert l2.
  induction H1 as [|x l1 Hs1 IH Hx]; intros l2 H2 Hp Hnd.
  - now apply Permutation_nil in Hp.
  - destruct H2 as [|y l2 Hs2 Hy].
    + symmetry in Hp. now apply Permutation_nil_cons in Hp.
    + assert (Exy : x = y).
      { destruct (decide (key x = key y)) as [Ek|Nk].
        - (* same key: same element, since keys are distinct in l1 *)
          assert (Hin : y ∈ x :: l1) by (rewrite Hp; left).
          apply elem_of_cons in Hin as [->|Hin]; [reflexivity|].
          exfalso. rewrite fmap_cons in Hnd. apply NoDup_cons in Hnd as [Hn _].
          apply Hn. rewrite Ek. now apply list_elem_of_fmap_2.
        - exfalso. apply Nk. apply key_le_antisym.
          + assert (Hin : y ∈ x :: l1) by (rewrite Hp; left).
            apply elem_of_cons in Hin as [->|Hin]; [apply key_le_refl|].
            rewrite Forall_forall in Hx. now apply Hx.
          + assert (Hin : x ∈ y :: l2) by (rewrite <- Hp; left).
            apply elem_of_cons in Hin as [->|Hin]; [apply key_le_refl|].
            rewrite Forall_forall in Hy. now apply Hy. }
      subst y. f_equal. apply IH; [exact Hs2| |].
      * now apply Permutation_cons_inv in Hp.
      * rewrite fmap_cons in Hnd. now apply NoDup_cons in Hnd as [_ Hnd].
Qed.

Lemma sorted_order_independent (l1 l2 : list A) :
  l1 ≡ₚ l2 -> NoDup (key <$> l1) -> sorted key l1 = sorted key l2.
Proof.
  intros Hp Hnd. apply sorted_unique.
  - apply sorted_sorted.
  - apply sorted_sorted.
  - now rewrite !sorted_perm.
  - now rewrite sorted_perm.
Qed.

End SortMore.

(** X1.  Contacts that come in the order of their sort keys are formatted
    in the order they come in. *)
Theorem contact_list_keeps_sorted_input
    (contacts : list (gmap string string)) (order_by : string) :
  StronglySorted (key_le (fun c => default "" (c !! order_by))) contacts ->
  contacts.generate_contact_list contacts order_by
  = comprehension contacts.format_contact contacts.
Proof.
  intros Hs. unfold contacts.generate_contact_list.
  f_equal. now apply (sorted_fixpoint (fun c => get c order_by "")).
Qed.

Lemma contact_list_keeps_sorted_input_witness :
  StronglySorted (key_le (fun c => default "" (c !! "role"))) contacts_by_role /\
  contacts.generate_contact_list contacts_by_role "role"
  = comprehension contacts.format_contact contacts_by_role.
Proof.
  assert (H : StronglySorted (key_le (fun c => default "" (c !! "role")))
                contacts_by_role).
  { repeat constructor; vm_compute; reflexivity. }
  split; [exact H|].
  exact (contact_list_keeps_sorted_input contacts_by_role "role" H).
Defined.

(** X2.  A sort field that no contact carries leaves the contacts in their
    input order: every key is the empty string, and nothing is raised for
    the unknown field. *)
Theorem contact_list_unknown_field_keeps_order
    (contacts : list (gmap string string)) (order_by : string) :
  Forall (fun c => c !! order_by = None) contacts ->
  contacts.generate_contact_list contacts order_by
  = comprehension contacts.format_contact contacts.
Proof.
  intros Hn. unfold contacts.generate_contact_list. f_equal.
  apply (sorted_fixpoint (fun c => get c order_by "")).
  apply (same_key_sorted _ "").
  eapply Forall_impl; [exact Hn|].
  intros c Hc. unfold get. now rewrite Hc.
Qed.

Lemma contact_list_unknown_field_keeps_order_witness :
  Forall (fun c : gmap string string => c !! "company" = None)
    sample_contacts /\
  contacts.generate_contact_list sample_contacts "company"
  = comprehension contacts.format_contact sample_contacts.
Proof.
  assert (H : Forall (fun c : gmap string string => c !! "company" = None)
                sample_contacts).
  { repeat constructor. }
  split; [exact H|].
  exact (contact_list_unknown_field_keeps_order sample_contacts "company" H).
Defined.

(** X3.  When no two contacts share the sort key, the result does not
    depend on the order of the input list. *)
Theorem contact_list_order_independent
    (contacts contacts' : list (gmap string string)) (order_by : string) :
  contacts ≡ₚ contacts' ->
  NoDup ((fun c => default "" (c !! order_by)) <$> contacts) ->
  contacts.generate_contact_list contacts order_by
  = contacts.generate_contact_list contacts' order_by.
Proof.
  intros Hp Hnd. unfold contacts.generate_contact_list. f_equal.
  now apply (sorted_order_independent (fun c => get c order_by "")).
Qed.

Lemma contact_list_order_independent_witness :
  sample_contacts ≡ₚ contacts_by_role /\
  NoDup ((fun c : gmap string string => default "" (c !! "email"))
           <$> sample_contacts) /\
  contacts.generate_contact_list sample_contacts "email"
  = contacts.generate_contact_list contacts_by_role "email".
Proof.
  assert (H1 : sample_contacts ≡ₚ contacts_by_role).
  { unfold sample_contacts, contacts_by_role.
    etransitivity; [|apply reverse_Permutation]. reflexivity. }
  assert (H2 : NoDup ((fun c : gmap string string => default "" (c !! "email"))
                        <$> sample_contacts)).
  { apply (bool_decide_unpack _). vm_compute. exact I. }
  split; [exact H1|]. split; [exact H2|].
  exact (contact_list_order_independent sample_contacts contacts_by_role
           "email" H1 H2).
Defined.

Section StripFacts.

Lemma space2_high (a b : ascii) :
  space2 a b = true -> (128 <= nat_of_ascii a /\ 128 <= nat_of_ascii b)%nat.
Proof.
  unfold space2. intros H.
  apply andb_true_iff in H as [Ha Hb].
  apply Nat.eqb_eq in Ha. apply orb_true_iff in Hb as [Hb|Hb];
    apply Nat.eqb_eq in Hb; lia.
Qed.

Lemma space3_high (a b c : ascii) :
  space3 a b c = true ->
  (128 <= nat_of_ascii a /\ 128 <= nat_of_ascii b /\ 128 <= nat_of_ascii c)%nat.
Proof.
  unfold space3. intros H.
  repeat (apply orb_true_iff in H as [H|H]);
    repeat (apply andb_true_iff in H as [H ?]);
    repeat match goal with
           | E : (_ || _) = true |- _ => apply orb_true_iff in E as [E|E]
           | E : (_ && _) = true |- _ => apply andb_true_iff in E as [E ?]
           | E : (_ =? _)%nat = true |- _ => apply Nat.eqb_eq in E
           | E : (_ <=? _)%nat = true |- _ => apply Nat.leb_le in E
           end; lia.
Qed.

(** A string that holds a seven-bit character other than white space is
    not a single white-space code point. *)
Lemma one_space_anchor (u v : string) (c : ascii) :
  (nat_of_ascii c < 128)%nat -> space1 c = false ->
  one_space (u ++ String c v) = false.
Proof.
  intros Hc Hs.
  destruct (one_space (u ++ String c v)) eqn:E; [exfalso|reflexivity].
  destruct u as [|a [|b [|d u]]]; rewrite ?append_cons in E;
    change ("" ++ String c v) with (String c v) in E.
  - destruct v as [|b [|d [|e v]]]; simpl in E.
    + congruence.
    + apply space2_high in E. lia.
    + apply space3_high in E. lia.
    + discriminate.
  - destruct v as [|d [|e v]]; simpl in E.
    + apply space2_high in E. lia.
    + apply space3_high in E. lia.
    + discriminate.
  - destruct v as [|e v]; simpl in E.
    + apply space3_high in E. lia.
    + discriminate.
  - destruct u as [|e u];
      [change ("" ++ String c v) with (String c v) in E
      |rewrite append_cons in E]; simpl in E; discriminate.
Qed.

(** [rstrip] never reaches to the left of such a character. *)
Lemma rstrip_anchor (l s : string) (c : ascii) :
  (nat_of_ascii c < 128)%nat -> space1 c = false ->
  rstrip (l ++ String c s) = l ++ String c (rstrip s).
Proof.
  intros Hc Hs. induction l as [|x l IH].
  - change ("" ++ String c s) with (String c s). rewrite rstrip_cons.
    pose proof (one_space_anchor "" (rstrip s) c Hc Hs) as E.
    change ("" ++ String c (rstrip s)) with (String c (rstrip s)) in E.
    now rewrite E.
  - rewrite !append_cons, rstrip_cons, IH.
    pose proof (one_space_anchor (String x l) (rstrip s) c Hc Hs) as E.
    rewrite append_cons in E. now rewrite E.
Qed.

End StripFacts.

(** ** Legal documents *)

(** X4.  The power of attorney reads the first two parties only: the
    facade gives the same outcome on a list of parties and on its first
    two, so the slice the application takes changes nothing. *)
Theorem power_of_attorney_first_two
    (env : provider) (parties : list (gmap string string))
    (project_name language : string) (h : list call) :
  legal_docs.generate_legal_document env "power_of_attorney"
    (take 2 parties) project_name language h
  = legal_docs.generate_legal_document env "power_of_attorney"
      parties project_name language h.
Proof.
  assert (E : legal_docs.build_prompt "power_of_attorney" (take 2 parties)
                project_name language
              = legal_docs.build_prompt "power_of_attorney" parties
                  project_name language).
  { destruct parties as [|p0 [|p1 others]]; reflexivity. }
  unfold legal_docs.generate_legal_document. now rewrite E.
Qed.

Lemma firm_lines (parties : list (gmap string string))
    (entries : list (string * string)) :
  Forall2 (fun p np => p !! "name" = Some np.1 /\ p !! "role" = Some np.2)
    parties entries ->
  comprehension firm_line parties = inr (party_line <$> entries).
Proof.
  induction 1 as [|p np parties entries [Hn Hr] _ IH]; [reflexivity|].
  cbn [comprehension]. unfold firm_line at 1, getitem.
  rewrite Hn, Hr. cbn [bind ret]. rewrite IH. reflexivity.
Qed.

(** X5.  The letter of association lists every party, one line a party,
    in input order, between the line of the label and the closing
    sentence; for no party at all the list is empty and nothing is
    raised. *)
Theorem letter_of_association_lists_parties
    (parties : list (gmap string string)) (entries : list (string * string))
    (project_name language : string) :
  Forall2 (fun p np => p !! "name" = Some np.1 /\ p !! "role" = Some np.2)
    parties entries ->
  exists head,
    legal_docs.build_prompt "letter_of_association" parties project_name
      language
    = inr (head ++ "Participating Firms:" ++ nl ++
           join nl (party_line <$> entries) ++ nl ++ nl ++
           "Generate the full legal Letter of Association document below:").
Proof.
  intros H. apply firm_lines in H.
  rewrite (loa_prompt _ _ _ _ H).
  exists (tail (legal_docs.letter_of_association
                  (legal_docs.get_language_legal_templates language)) ++ "

Project Name: " ++ project_name ++ "

").
  f_equal. rewrite !append_assoc. reflexivity.
Qed.

Lemma letter_of_association_lists_parties_witness :
  Forall2 (fun (p : gmap string string) np =>
             p !! "name" = Some np.1 /\ p !! "role" = Some np.2)
    letter_of_association_parties party_entries /\
  exists head,
    legal_docs.build_prompt "letter_of_association"
      letter_of_association_parties "Renewable Energy Project" "portuguese"
    = inr (head ++ "Participating Firms:" ++ nl ++
           join nl (party_line <$> party_entries) ++ nl ++ nl ++
           "Generate the full legal Letter of Association document below:").
Proof.
  assert (H : Forall2 (fun (p : gmap string string) np =>
                         p !! "name" = Some np.1 /\ p !! "role" = Some np.2)
                letter_of_association_parties party_entries).
  { repeat constructor. }
  split; [exact H|].
  exact (letter_of_association_lists_parties letter_of_association_parties
           party_entries "Renewable Energy Project" "portuguese" H).
Defined.

Section ComprehensionStops.

Context {A B : Type} (f : A -> result B).

Lemma comprehension_stops (done rest : list A) (a : A) (e : exn) :
  Forall (fun x => exists y, f x = inr y) done ->
  f a = inl e ->
  comprehension f (done ++ a :: rest) = inl e.
Proof.
  intros Hdone Ha. induction Hdone as [|x done [y Hx] _ IH].
  - cbn [app comprehension]. rewrite Ha. reflexivity.
  - cbn [app comprehension]. rewrite Hx, IH. reflexivity.
Qed.

End ComprehensionStops.

Lemma firm_line_complete (p : gmap string string) :
  has_name_role p -> exists s, firm_line p = inr s.
Proof.
  unfold has_name_role, firm_line, getitem.
  intros [[n Hn] [r Hr]]. rewrite Hn, Hr. eexists. reflexivity.
Qed.

Lemma firm_line_first_missing (p : gmap string string) :
  ~ has_name_role p ->
  firm_line p = inl (KeyError (first_missing "name" "role" p)).
Proof.
  unfold has_name_role, firm_line, first_missing, getitem. intros H.
  destruct (p !! "name"); cbn [bind raise ret]; [|reflexivity].
  destruct (p !! "role"); cbn [bind raise ret]; [|reflexivity].
  exfalso. apply H. eauto.
Qed.

(** X6.  The first party without name or role among the parties a legal
    document reads (all of them for the letter of association, the first
    two for the power of attorney) makes [generate_legal_document] raise
    the [KeyError] of the key that party lacks, of the name when it lacks
    both: no text is returned and the provider is not called. *)
Theorem legal_document_party_missing_key
    (env : provider) (doc_type project_name language : string)
    (parties done rest : list (gmap string string))
    (p : gmap string string) (h : list call) :
  doc_type = "letter_of_association" /\ parties = (done ++ p :: rest)%list
  \/ doc_type = "power_of_attorney" /\
     take 2 parties = (done ++ p :: rest)%list ->
  Forall has_name_role done ->
  ~ has_name_role p ->
  legal_docs.generate_legal_document env doc_type parties project_name
    language h
  = (inl (KeyError (first_missing "name" "role" p)), h).
Proof.
  intros Hread Hdone Hp.
  assert (Hb : legal_docs.build_prompt doc_type parties project_name language
               = inl (KeyError (first_missing "name" "role" p))).
  { unfold legal_docs.build_prompt.
    destruct Hread as [[-> ->]|[-> Htake]].
    - case_decide; [congruence|]. case_decide; [|congruence].
      fold firm_line.
      rewrite (comprehension_stops firm_line done rest p
                 (KeyError (first_missing "name" "role" p)));
        [reflexivity| |now apply firm_line_first_missing].
      eapply Forall_impl; [exact Hdone|]. apply firm_line_complete.
    - case_decide; [|congruence].
      pose proof (firm_line_first_missing p Hp) as Hl.
      unfold firm_line, getitem in Hl. unfold item, getitem.
      destruct done as [|d0 done].
      + destruct parties as [|p0 others]; [discriminate|].
        assert (p0 = p) as ->.
        { destruct others; injection Htake; intros; congruence. }
        change ((p :: others) !! 0%nat) with (Some p). cbn [bind ret].
        destruct (p !! "name"); cbn [bind raise ret] in Hl |- *;
          [|exact Hl].
        destruct (p !! "role"); cbn [bind raise ret] in Hl |- *;
          [discriminate|exact Hl].
      + destruct parties as [|p0 [|p1 others]];
          [discriminate|destruct done; discriminate|].
        cbn [take] in Htake.
        assert (p0 = d0 /\ p1 = p) as [-> ->].
        { destruct done as [|d1 done]; [|destruct done; discriminate].
          injection Htake; intros; split; congruence. }
        apply Forall_cons in Hdone as [[[n0 Hn0] [r0 Hr0]] _].
        change ((d0 :: p :: others) !! 0%nat) with (Some d0).
        change ((d0 :: p :: others) !! 1%nat) with (Some p).
        cbn [bind ret]. rewrite Hn0. cbn [bind ret]. rewrite Hr0.
        cbn [bind ret].
        destruct (p !! "name"); cbn [bind raise ret] in Hl |- *;
          [|exact Hl].
        destruct (p !! "role"); cbn [bind raise ret] in Hl |- *;
          [discriminate|exact Hl]. }
  unfold legal_docs.generate_legal_document, mbind, lift.
  now rewrite Hb.
Qed.

Lemma legal_document_party_missing_key_witness :
  ("letter_of_association" = "letter_of_association" /\
     parties_without_role
     = ([ {[ "name" := "Alpha Consulting"; "role" := "Lead Firm" ]} ] ++
        {[ "name" := "Beta Engineering" ]} :: [])%list
   \/ "letter_of_association" = "power_of_attorney" /\
     take 2 parties_without_role
     = ([ {[ "name" := "Alpha Consulting"; "role" := "Lead Firm" ]} ] ++
        {[ "name" := "Beta Engineering" ]} :: [])%list) /\
  Forall has_name_role
    [ ({[ "name" := "Alpha Consulting"; "role" := "Lead Firm" ]}
       : gmap string string) ] /\
  ~ has_name_role {[ "name" := "Beta Engineering" ]} /\
  legal_docs.generate_legal_document (answering "text")
    "letter_of_association" parties_without_role
    "Renewable Energy Project" "english" []
  = (inl (KeyError "role"), []).
Proof.
  assert (H1 : "letter_of_association" = "letter_of_association" /\
     parties_without_role
     = ([ {[ "name" := "Alpha Consulting"; "role" := "Lead Firm" ]} ] ++
        {[ "name" := "Beta Engineering" ]} :: [])%list
   \/ "letter_of_association" = "power_of_attorney" /\
     take 2 parties_without_role
     = ([ {[ "name" := "Alpha Consulting"; "role" := "Lead Firm" ]} ] ++
        {[ "name" := "Beta Engineering" ]} :: [])%list).
  { left. split; reflexivity. }
  assert (H2 : Forall has_name_role
    [ ({[ "name" := "Alpha Consulting"; "role" := "Lead Firm" ]}
       : gmap string string) ]).
  { repeat constructor; vm_compute; eauto. }
  assert (H3 : ~ has_name_role {[ "name" := "Beta Engineering" ]}).
  { intros [_ [r Hr]]. vm_compute in Hr. discriminate. }
  split; [exact H1|]. split; [exact H2|]. split; [exact H3|].
  exact (legal_document_party_missing_key (answering "text")
           "letter_of_association" "Renewable Energy Project" "english"
           parties_without_role _ _ _ [] H1 H2 H3).
Defined.

(** X7.  The locale is read without regard to letter case: two locale
    strings with the same lower-case form give the same prompt, or the same
    exception, in both prompt builders. *)
Theorem locale_case_insensitive
    (language language' doc_type project_name project_relevance : string)
    (parties : list (gmap string string)) (f : company_profiles.firm) :
  lower language = lower language' ->
  legal_docs.build_prompt doc_type parties project_name language
  = legal_docs.build_prompt doc_type parties project_name language'
  /\
  company_profiles.build_prompt f project_relevance language
  = company_profiles.build_prompt f project_relevance language'.
Proof.
  intros E. split.
  - unfold legal_docs.build_prompt, legal_docs.get_language_legal_templates.
    now rewrite E.
  - unfold company_profiles.build_prompt. now rewrite E.
Qed.

Lemma locale_case_insensitive_witness :
  lower "Spanish" = lower "SPANISH" /\
  legal_docs.build_prompt "power_of_attorney" power_of_attorney_parties
    "Renewable Energy Project" "Spanish"
  = legal_docs.build_prompt "power_of_attorney" power_of_attorney_parties
      "Renewable Energy Project" "SPANISH"
  /\
  company_profiles.build_prompt sample_firm "Smart City" "Spanish"
  = company_profiles.build_prompt sample_firm "Smart City" "SPANISH".
Proof.
  assert (H : lower "Spanish" = lower "SPANISH") by reflexivity.
  split; [exact H|].
  exact (locale_case_insensitive "Spanish" "SPANISH" "power_of_attorney"
           "Renewable Energy Project" "Smart City" power_of_attorney_parties
           sample_firm H).
Defined.

(** X8.  On a payload fit for the document type (parties with name and
    role, two at least for the power of attorney),
    [generate_legal_document] never raises, whatever the provider does:
    it calls the provider exactly once, on the prompt built, and returns
    the stripped answer, or the text of the failure when the provider
    raised. *)
Theorem legal_document_never_raises
    (env : provider) (doc_type project_name language : string)
    (parties : list (gmap string string)) (h : list call) :
  doc_type = "power_of_attorney" /\ (2 <= length parties)%nat \/
  doc_type = "letter_of_association" ->
  Forall has_name_role parties ->
  exists prompt,
    legal_docs.build_prompt doc_type parties project_name language
    = inr prompt /\
    legal_docs.generate_legal_document env doc_type parties project_name
      language h
    = (inr match env h (legal_docs.request prompt) with
           | inr text => strip text
           | inl e => "Error generating legal document: " ++ str e
           end,
       (h ++ [legal_docs.request prompt])%list).
Proof.
  intros Hkind Hall.
  assert (Hb : exists prompt,
    legal_docs.build_prompt doc_type parties project_name language
    = inr prompt).
  { destruct Hkind as [[-> Hlen]| ->].
    - destruct parties as [|p0 [|p1 others]]; simpl in Hlen; try lia.
      apply Forall_cons in Hall as [[[n0 Hn0] [r0 Hr0]] Hall].
      apply Forall_cons in Hall as [[[n1 Hn1] [r1 Hr1]] _].
      eexists. apply (poa_prompt _ _ _ _ _ _ _ _ _ Hn0 Hr0 Hn1 Hr1).
    - destruct (firm_lines_ok _ Hall) as [firms Hf].
      eexists. apply (loa_prompt _ _ _ _ Hf). }
  destruct Hb as [prompt Hb]. exists prompt. split; [exact Hb|].
  unfold legal_docs.generate_legal_document, mbind, lift, try_except,
    invoke, mret.
  rewrite Hb. destruct (env h (legal_docs.request prompt)); reflexivity.
Qed.

Lemma legal_document_never_raises_witness :
  ("power_of_attorney" = "power_of_attorney" /\
     (2 <= length power_of_attorney_parties)%nat \/
   "power_of_attorney" = "letter_of_association") /\
  Forall has_name_role power_of_attorney_parties /\
  exists prompt,
    legal_docs.build_prompt "power_of_attorney" power_of_attorney_parties
      "Renewable Energy Project" "english" = inr prompt /\
    legal_docs.generate_legal_document (answering "  POWER OF ATTORNEY  ")
      "power_of_attorney" power_of_attorney_parties
      "Renewable Energy Project" "english" []
    = (inr "POWER OF ATTORNEY", ([] ++ [legal_docs.request prompt])%list).
Proof.
  assert (H1 : "power_of_attorney" = "power_of_attorney" /\
                 (2 <= length power_of_attorney_parties)%nat \/
               "power_of_attorney" = "letter_of_association").
  { left. split; [reflexivity|simpl; lia]. }
  assert (H2 : Forall has_name_role power_of_attorney_parties).
  { repeat constructor; vm_compute; eauto. }
  split; [exact H1|]. split; [exact H2|].
  exact (legal_document_never_raises (answering "  POWER OF ATTORNEY  ")
           "power_of_attorney" "Renewable Energy Project" "english"
           power_of_attorney_parties [] H1 H2).
Defined.

Section ComprehensionMore.

Context {A B : Type} (f : A -> result B).

Lemma comprehension_Forall2 (l : list A) (out : list B) :
  comprehension f l = inr out -> Forall2 (fun a b => f a = inr b) l out.
Proof.
  revert out. induction l as [|a l IH]; intros out; cbn [comprehension].
  - intros [= <-]. constructor.
  - destruct (f a) as [e|b] eqn:Ha; cbn [bind]; [discriminate|].
    destruct (comprehension f l) as [e|bs]; cbn [bind ret]; [discriminate|].
    intros [= <-]. constructor; [exact Ha|]. now apply IH.
Qed.

End ComprehensionMore.

Lemma join_lookup (sep x : string) (l : list string) (i : nat) :
  l !! i = Some x -> exists pre post, join sep l = pre ++ x ++ post.
Proof.
  revert i. induction l as [|y l IH]; intros i Hi; [discriminate|].
  destruct i as [|i]; simpl in Hi.
  - injection Hi as ->. destruct l as [|z l].
    + exists "", "". change (join sep [x]) with x.
      change ("" ++ x ++ "") with (x ++ "").
      clear. induction x as [|c x IH]; [reflexivity|].
      rewrite append_cons. now rewrite <- IH.
    + exists "", (sep ++ join sep (z :: l)). reflexivity.
  - destruct (IH i Hi) as (pre & post & E). destruct l as [|z l]; [discriminate|].
    exists (y ++ sep ++ pre), post.
    change (join sep (y :: z :: l)) with (y ++ sep ++ join sep (z :: l)).
    rewrite E, !append_assoc. reflexivity.
Qed.

Lemma enumerate_lookup {A} (l : list A) (i : nat) (a : A) :
  l !! i = Some a -> enumerate l !! i = Some (i, a).
Proof.
  intros H. unfold enumerate. apply lookup_zip_with_Some.
  exists i, a. split; [reflexivity|]. split; [|exact H].
  apply lookup_seq. split; [reflexivity|]. now apply lookup_lt_Some in H.
Qed.

Lemma enumerate_Forall {A} (P : A -> Prop) (l : list A) :
  Forall P l -> Forall (fun ip => P ip.2) (enumerate l).
Proof.
  intros H. apply Forall_lookup. intros j [i a] Hj.
  unfold enumerate in Hj. apply lookup_zip_with_Some in Hj
    as (x & y & [= <- <-] & _ & Hy).
  rewrite Forall_lookup in H. now apply (H j).
Qed.


Lemma project_entry_complete (ip : nat * gmap string string) :
  has_title_description ip.2 -> exists s, project_entry ip = inr s.
Proof.
  destruct ip as [i p]. unfold has_title_description, project_entry, getitem.
  cbn [snd]. intros [[t Ht] [d Hd]]. rewrite Ht, Hd. eexists. reflexivity.
Qed.

(** The prompt of the project evaluation, its fixed parts and the strip
    worked out: the only white space [strip] can remove is at the end of
    the list of past projects. *)
Lemma project_prompt (current_project : string)
    (past_projects : list (gmap string string)) (entries : list string) :
  comprehension project_entry (enumerate past_projects) = inr entries ->
  project_lists.build_prompt current_project past_projects
  = inr (project_header ++ dq ++ dq ++ dq ++ current_project ++
         dq ++ dq ++ dq ++ nl ++ nl ++ "PAST PROJECTS:" ++
         rstrip (nl ++ join nl entries ++ nl)).
Proof.
  intros Hc. unfold project_lists.build_prompt.
  change (comprehension _ (enumerate past_projects))
    with (comprehension project_entry (enumerate past_projects)).
  rewrite Hc. cbn [bind ret]. f_equal. unfold strip.
  match goal with
  | |- rstrip (lstrip ?X) = _ =>
      change (lstrip X) with
        (project_header ++ dq ++ dq ++ dq ++ current_project ++
         dq ++ dq ++ dq ++ "

PAST PROJECTS" ++ String ":"%char (nl ++ join nl entries ++ nl))
  end.
  rewrite <- !append_assoc.
  rewrite rstrip_anchor by (vm_compute; first [lia | reflexivity]).
  rewrite !append_assoc. reflexivity.
Qed.

(** ** Company profiles *)

(** X9.  A firm without name or without description makes
    [generate_company_profile] raise a [KeyError], for name when both are
    missing: the failure is not turned into a text and the provider is
    not called. *)
Theorem company_profile_missing_key
    (env : provider) (f : company_profiles.firm)
    (project_relevance language : string) (h : list call) :
  company_profiles.name f = None \/ company_profiles.description f = None ->
  company_profiles.generate_company_profile env f project_relevance
    language h
  = (inl (KeyError match company_profiles.name f with
                   | Some _ => "description"
                   | None => "name"
                   end), h).
Proof.
  intros Hbad.
  unfold company_profiles.generate_company_profile, mbind, lift,
    company_profiles.build_prompt, company_profiles.firm_getitem.
  destruct (company_profiles.name f) as [n|]; cbn [bind raise ret];
    [|reflexivity].
  destruct (company_profiles.description f) as [d|]; cbn [bind raise ret];
    [|reflexivity].
  destruct Hbad; discriminate.
Qed.

Lemma company_profile_missing_key_witness :
  (company_profiles.name firm_without_description = None \/
   company_profiles.description firm_without_description = None) /\
  company_profiles.generate_company_profile (answering "text")
    firm_without_description "Smart City" "english" []
  = (inl (KeyError "description"), []).
Proof.
  assert (H : company_profiles.name firm_without_description = None \/
              company_profiles.description firm_without_description = None).
  { right. reflexivity. }
  split; [exact H|].
  exact (company_profile_missing_key (answering "text")
           firm_without_description "Smart City" "english" [] H).
Defined.

(** X10.  For a firm with name and description,
    [generate_company_profile] never raises, whatever the provider does:
    it calls the provider exactly once, on the prompt built, and returns
    the stripped answer, or the text of the failure when the provider
    raised. *)
Theorem company_profile_never_raises
    (env : provider) (f : company_profiles.firm)
    (project_relevance language : string) (h : list call) :
  is_Some (company_profiles.name f) ->
  is_Some (company_profiles.description f) ->
  exists prompt,
    company_profiles.build_prompt f project_relevance language
    = inr prompt /\
    company_profiles.generate_company_profile env f project_relevance
      language h
    = (inr match env h (company_profiles.request prompt) with
           | inr content => strip content
           | inl e => "Error generating company profile: " ++ str e
           end,
       (h ++ [company_profiles.request prompt])%list).
Proof.
  intros [n Hn] [d Hd].
  pose proof (profile_prompt f project_relevance language n d Hn Hd) as Hb.
  cbv zeta in Hb. eexists. split; [exact Hb|].
  unfold company_profiles.generate_company_profile, mbind, lift, try_except,
    invoke, mret.
  rewrite Hb.
  match goal with
  | |- context [env h ?c] => destruct (env h c)
  end; reflexivity.
Qed.

Lemma company_profile_never_raises_witness :
  is_Some (company_profiles.name sample_firm) /\
  is_Some (company_profiles.description sample_firm) /\
  exists prompt,
    company_profiles.build_prompt sample_firm "Smart City" "english"
    = inr prompt /\
    company_profiles.generate_company_profile
      (failing (ProviderError "Connection error.")) sample_firm "Smart City"
      "english" []
    = (inr ("Error generating company profile: " ++ "Connection error."),
       ([] ++ [company_profiles.request prompt])%list).
Proof.
  assert (H1 : is_Some (company_profiles.name sample_firm))
    by (simpl; eauto).
  assert (H2 : is_Some (company_profiles.description sample_firm))
    by (simpl; eauto).
  split; [exact H1|]. split; [exact H2|].
  exact (company_profile_never_raises
           (failing (ProviderError "Connection error.")) sample_firm
           "Smart City" "english" [] H1 H2).
Defined.

(** X11.  The company-profile prompt holds the worked example of the
    locale verbatim, line breaks included, and the name, the description
    and the relevance statement as given, each after its label. *)
Theorem company_profile_prompt_contents
    (f : company_profiles.firm)
    (project_relevance language firm_name firm_description : string) :
  company_profiles.name f = Some firm_name ->
  company_profiles.description f = Some firm_description ->
  exists prompt,
    company_profiles.build_prompt f project_relevance language = inr prompt /\
    contains (company_profiles.example
                (company_profiles.get_language_profile_templates language))
      prompt = true /\
    contains ("Company Name: " ++ firm_name ++ nl ++
              "Description: " ++ firm_description ++ nl ++ "Certifications:")
      prompt = true /\
    contains ("Relevance to Project: " ++ project_relevance ++ nl) prompt
    = true.
Proof.
  intros Hn Hd. eexists. split; [apply (profile_prompt _ _ _ _ _ Hn Hd)|].
  cbv zeta.
  set (tpl := company_profiles.get_language_profile_templates language).
  set (certs := or_ _ _). set (achs := or_ _ _).
  split; [|split]; apply contains_spec.
  - exists (tail (company_profiles.instructions tpl) ++ "

Generate a company profile using the data below.

Company Name: " ++ firm_name ++ "
Description: " ++ firm_description ++ "
Certifications:
" ++ certs ++ "
Key Achievements:
" ++ achs ++ "
Relevance to Project: " ++ project_relevance ++ "

"), "

Now produce the tailored company profile.".
    rewrite !append_assoc. reflexivity.
  - exists (tail (company_profiles.instructions tpl) ++ "

Generate a company profile using the data below.

"), ("
" ++ certs ++ "
Key Achievements:
" ++ achs ++ "
Relevance to Project: " ++ project_relevance ++ "

" ++ company_profiles.example tpl ++ "

Now produce the tailored company profile.").
    rewrite !append_assoc. reflexivity.
  - exists (tail (company_profiles.instructions tpl) ++ "

Generate a company profile using the data below.

Company Name: " ++ firm_name ++ "
Description: " ++ firm_description ++ "
Certifications:
" ++ certs ++ "
Key Achievements:
" ++ achs ++ "
"), ("
" ++ company_profiles.example tpl ++ "

Now produce the tailored company profile.").
    rewrite !append_assoc. reflexivity.
Qed.

Lemma company_profile_prompt_contents_witness :
  company_profiles.name sample_firm = Some "Alpha Consulting" /\
  company_profiles.description sample_firm
  = Some "A multidisciplinary engineering firm specializing in urban infrastructure." /\
  exists prompt,
    company_profiles.build_prompt sample_firm "Smart City" "spanish"
    = inr prompt /\
    contains (company_profiles.example
                (company_profiles.get_language_profile_templates "spanish"))
      prompt = true /\
    contains ("Company Name: " ++ "Alpha Consulting" ++ nl ++
              "Description: " ++
              "A multidisciplinary engineering firm specializing in urban infrastructure."
              ++ nl ++ "Certifications:")
      prompt = true /\
    contains ("Relevance to Project: " ++ "Smart City" ++ nl) prompt = true.
Proof.
  split; [reflexivity|]. split; [reflexivity|].
  exact (company_profile_prompt_contents sample_firm "Smart City" "spanish"
           _ _ eq_refl eq_refl).
Defined.

(** ** Project evaluation *)

Lemma enumerate_app {A} (l1 l2 : list A) :
  enumerate (l1 ++ l2)
  = (enumerate l1 ++ zip (seq (length l1) (length l2)) l2)%list.
Proof.
  unfold enumerate. rewrite length_app, seq_app.
  apply zip_with_app. now rewrite length_seq.
Qed.

Lemma project_entry_first_missing (i : nat) (p : gmap string string) :
  ~ has_title_description p ->
  project_entry (i, p)
  = inl (KeyError (first_missing "title" "description" p)).
Proof.
  unfold has_title_description, project_entry, first_missing, getitem.
  intros H.
  destruct (p !! "title"); cbn [bind raise ret]; [|reflexivity].
  destruct (p !! "description"); cbn [bind raise ret]; [|reflexivity].
  exfalso. apply H. eauto.
Qed.

(** X12.  The first past project without title or description makes
    [generate_project_list] raise the [KeyError] of the key that project
    lacks, of the title when it lacks both; the error is raised as it is,
    not as a [RuntimeError] or [ValueError], before the provider is
    called. *)
Theorem project_list_missing_key
    (env : provider) (je_text : string -> string) (current_project : string)
    (done rest : list (gmap string string)) (p : gmap string string)
    (h : list call) :
  Forall has_title_description done ->
  ~ has_title_description p ->
  project_lists.generate_project_list env je_text current_project
    (done ++ p :: rest) h
  = (inl (KeyError (first_missing "title" "description" p)), h).
Proof.
  intros Hdone Hp.
  assert (Hb : project_lists.build_prompt current_project (done ++ p :: rest)
               = inl (KeyError (first_missing "title" "description" p))).
  { unfold project_lists.build_prompt.
    change (comprehension _ (enumerate (done ++ p :: rest)))
      with (comprehension project_entry (enumerate (done ++ p :: rest))).
    rewrite enumerate_app. cbn [length seq zip zip_with].
    rewrite (comprehension_stops project_entry (enumerate done) _
               (length done, p)
               (KeyError (first_missing "title" "description" p)));
      [reflexivity| |now apply project_entry_first_missing].
    eapply Forall_impl; [apply enumerate_Forall, Hdone|].
    intros ip. apply project_entry_complete. }
  unfold project_lists.generate_project_list, mbind, lift.
  now rewrite Hb.
Qed.

Lemma project_list_missing_key_witness :
  Forall has_title_description
    [ ({[ "title" := "Urban Smart Grid Deployment";
          "description" :=
            "Developed a city-wide smart grid to optimize energy consumption." ]}
       : gmap string string) ] /\
  ~ has_title_description {[ "title" := "IoT Environmental Monitoring" ]} /\
  project_lists.generate_project_list (answering "[]") decoder_text current
    past_without_description [] = (inl (KeyError "description"), []).
Proof.
  assert (H1 : Forall has_title_description
    [ ({[ "title" := "Urban Smart Grid Deployment";
          "description" :=
            "Developed a city-wide smart grid to optimize energy consumption." ]}
       : gmap string string) ]).
  { repeat constructor; vm_compute; eauto. }
  assert (H2 : ~ has_title_description
                 {[ "title" := "IoT Environmental Monitoring" ]}).
  { intros [_ [d Hd]]. vm_compute in Hd. discriminate. }
  split; [exact H1|]. split; [exact H2|].
  exact (project_list_missing_key (answering "[]") decoder_text current
           _ [] _ [] H1 H2).
Defined.



Lemma loads_backtick (s : string) : json.loads (String "`"%char s) = None.
Proof. reflexivity. Qed.

(** X14.  An answer that, stripped, starts with a backquote, as a JSON
    document inside a Markdown code fence does, is not decoded: the call
    raises the [ValueError] of an invalid response. *)
Theorem fenced_response_rejected
    (env : provider) (je_text : string -> string) (current_project : string)
    (past_projects : list (gmap string string)) (h : list call)
    (prompt text rest : string) :
  project_lists.build_prompt current_project past_projects = inr prompt ->
  env h (project_lists.request prompt) = inr text ->
  strip text = String "`"%char rest ->
  project_lists.generate_project_list env je_text current_project
    past_projects h
  = (inl (ValueError
            ("Failed to parse JSON from model response: " ++
             je_text (strip text) ++ nl ++ "Raw response:" ++ nl ++
             strip text)),
     (h ++ [project_lists.request prompt])%list).
Proof.
  intros Hb Henv Hs.
  unfold project_lists.generate_project_list, mbind, lift, invoke.
  rewrite Hb, Henv. rewrite Hs at 1. rewrite loads_backtick. reflexivity.
Qed.

Lemma fenced_response_rejected_witness :
  exists prompt rest,
    project_lists.build_prompt current past = inr prompt /\
    answering fenced_response [] (project_lists.request prompt)
    = inr fenced_response /\
    strip fenced_response = String "`"%char rest /\
    project_lists.generate_project_list (answering fenced_response)
      decoder_text current past []
    = (inl (ValueError
              ("Failed to parse JSON from model response: " ++
               decoder_text (strip fenced_response) ++ nl ++
               "Raw response:" ++ nl ++ strip fenced_response)),
       ([] ++ [project_lists.request prompt])%list).
Proof.
  do 2 eexists.
  assert (H1 : project_lists.build_prompt current past = inr _)
    by (vm_compute; reflexivity).
  assert (H3 : strip fenced_response = String "`"%char _)
    by (vm_compute; reflexivity).
  split; [exact H1|]. split; [reflexivity|]. split; [exact H3|].
  exact (fenced_response_rejected (answering fenced_response) decoder_text
           current past [] _ fenced_response _ H1 eq_refl H3).
Defined.

Lemma project_entries_ok (past_projects : list (gmap string string)) :
  Forall has_title_description past_projects ->
  exists entries,
    comprehension project_entry (enumerate past_projects) = inr entries.
Proof.
  intros H.
  destruct (comprehension_ok project_entry (enumerate past_projects))
    as (entries & Hc & _).
  - eapply Forall_impl; [apply enumerate_Forall, H|].
    intros ip. apply project_entry_complete.
  - now exists entries.
Qed.

(** X15.  Every past project stands in the prompt under its number, the
    numbers running from 1 in input order, with its title as given. *)
Theorem project_prompt_lists_projects
    (current_project title : string)
    (past_projects : list (gmap string string)) (i : nat)
    (p : gmap string string) :
  Forall has_title_description past_projects ->
  past_projects !! i = Some p ->
  p !! "title" = Some title ->
  exists prompt,
    project_lists.build_prompt current_project past_projects = inr prompt /\
    contains (pretty (i + 1)%nat ++ ". Title: " ++ title ++ nl ++
              "   Description:") prompt = true.
Proof.
  intros Hall Hi Ht.
  destruct (project_entries_ok _ Hall) as [entries Hc].
  eexists. split; [apply (project_prompt _ _ _ Hc)|].
  pose proof (comprehension_Forall2 _ _ _ Hc) as H2.
  destruct (Forall2_lookup_l _ _ _ _ _ H2 (enumerate_lookup _ _ _ Hi))
    as (s & Hs & He).
  rewrite Forall_lookup in Hall. destruct (Hall i p Hi) as [_ [d Hd]].
  unfold project_entry, getitem in He. rewrite Ht, Hd in He.
  cbn [bind ret] in He. injection He as <-.
  destruct (join_lookup nl _ _ _ Hs) as (pre & post & ->).
  apply contains_spec.
  exists (project_header ++ dq ++ dq ++ dq ++ current_project ++
          dq ++ dq ++ dq ++ nl ++ nl ++ "PAST PROJECTS:" ++ nl ++ pre),
         (rstrip (" " ++ d ++ post ++ nl)).
  rewrite !append_assoc. do 11 f_equal.
  transitivity
    (rstrip ((nl ++ pre ++ pretty (i + 1)%nat ++ ". Title: " ++ title ++ "
   Description") ++ String ":"%char (" " ++ d ++ post ++ nl))).
  - f_equal. rewrite !append_assoc. reflexivity.
  - rewrite rstrip_anchor by (vm_compute; first [lia | reflexivity]).
    rewrite !append_assoc. reflexivity.
Qed.

Lemma project_prompt_lists_projects_witness :
  exists p,
    Forall has_title_description past /\
    past !! 2%nat = Some p /\
    p !! "title" = Some "Rural Solar Expansion" /\
    exists prompt,
      project_lists.build_prompt current past = inr prompt /\
      contains (pretty (2 + 1)%nat ++ ". Title: " ++ "Rural Solar Expansion"
                ++ nl ++ "   Description:") prompt = true.
Proof.
  eexists.
  assert (H1 : Forall has_title_description past).
  { repeat constructor; vm_compute; eauto. }
  assert (H2 : past !! 2%nat = Some _) by reflexivity.
  split; [exact H1|]. split; [exact H2|]. split; [reflexivity|].
  exact (project_prompt_lists_projects current "Rural Solar Expansion" past
           2 _ H1 H2 eq_refl).
Defined.

Lemma project_entries (past_projects : list (gmap string string))
    (entries : list (string * string)) :
  Forall2 (fun p td => p !! "title" = Some td.1 /\
                       p !! "description" = Some td.2)
    past_projects entries ->
  comprehension project_entry (enumerate past_projects)
  = inr (project_line <$> enumerate entries).
Proof.
  unfold enumerate. generalize 0%nat as n.
  intros n H. revert n.
  induction H as [|p td past_projects entries [Ht Hd] _ IH]; intros n;
    [reflexivity|].
  change (comprehension project_entry
            ((n, p) :: zip (seq (S n) (length past_projects)) past_projects)
          = inr (project_line (n, td) ::
                 (project_line <$> zip (seq (S n) (length entries)) entries))).
  cbn [comprehension]. unfold project_entry at 1, getitem.
  rewrite Ht, Hd. cbn [bind ret]. rewrite (IH (S n)). reflexivity.
Qed.

(** X16.  The prompt of the project evaluation is the fixed header, the
    current project as given between triple double quotes, the label of
    the past projects and their list: one entry a project, in input order,
    numbered from 1, with title and description as given, each entry on a
    line of its own after the label, white space at the end of the last
    one removed.  For an empty list of past projects the prompt ends with
    the label. *)
Theorem project_prompt_layout
    (current_project : string) (past_projects : list (gmap string string))
    (entries : list (string * string)) :
  Forall2 (fun p td => p !! "title" = Some td.1 /\
                       p !! "description" = Some td.2)
    past_projects entries ->
  exists listing,
    project_lists.build_prompt current_project past_projects
    = inr (project_header ++ dq ++ dq ++ dq ++ current_project ++
           dq ++ dq ++ dq ++ nl ++ nl ++ "PAST PROJECTS:" ++ listing) /\
    listing = rstrip (nl ++ join nl (project_line <$> enumerate entries) ++ nl)
    /\ (past_projects = [] -> listing = "").
Proof.
  intros H. pose proof (project_entries _ _ H) as Hc.
  eexists. split; [apply (project_prompt _ _ _ Hc)|].
  split; [reflexivity|].
  intros ->. apply Forall2_nil_inv_l in H as ->. reflexivity.
Qed.

Lemma project_prompt_layout_witness :
  (Forall2 (fun (p : gmap string string) td =>
              p !! "title" = Some td.1 /\ p !! "description" = Some td.2)
     past past_entries /\
   exists listing,
     project_lists.build_prompt current past
     = inr (project_header ++ dq ++ dq ++ dq ++ current ++
            dq ++ dq ++ dq ++ nl ++ nl ++ "PAST PROJECTS:" ++ listing) /\
     listing
     = rstrip (nl ++ join nl (project_line <$> enumerate past_entries) ++ nl))
  /\
  (Forall2 (fun (p : gmap string string) (td : string * string) =>
              p !! "title" = Some td.1 /\ p !! "description" = Some td.2)
     [] [] /\
   exists listing,
     project_lists.build_prompt current []
     = inr (project_header ++ dq ++ dq ++ dq ++ current ++
            dq ++ dq ++ dq ++ nl ++ nl ++ "PAST PROJECTS:" ++ listing) /\
     listing = "").
Proof.
  assert (H : Forall2 (fun (p : gmap string string) td =>
                         p !! "title" = Some td.1 /\
                         p !! "description" = Some td.2)
                past past_entries).
  { repeat constructor. }
  assert (H0 : Forall2 (fun (p : gmap string string) (td : string * string) =>
                          p !! "title" = Some td.1 /\
                          p !! "description" = Some td.2) [] []).
  { constructor. }
  split.
  - split; [exact H|].
    destruct (project_prompt_layout current past past_entries H)
      as (listing & E & El & _).
    exists listing. split; [exact E|exact El].
  - split; [exact H0|].
    destruct (project_prompt_layout current [] [] H0)
      as (listing & E & _ & Hempty).
    exists listing. split; [exact E|exact (Hempty eq_refl)].
Defined.

Section StripStable.

Lemma lstrip_clean (s : string) : starts_clean s = true -> lstrip s = s.
Proof.
  destruct s as [|a [|b [|c s]]]; cbn [starts_clean lstrip]; intros H;
    repeat (apply andb_true_iff in H as [? H]);
    repeat match goal with
           | E : negb ?x = true |- _ => apply negb_true_iff in E; rewrite E
           end; reflexivity.
Qed.

Lemma starts_clean_lstrip (s : string) : starts_clean (lstrip s) = true.
Proof.
  assert (H : forall n s, (String.length s <= n)%nat ->
                starts_clean (lstrip s) = true).
  { clear s. induction n as [|n IH]; intros s Hn.
    - destruct s; [reflexivity|simpl in Hn; lia].
    - destruct s as [|a s1]; [reflexivity|]. cbn [String.length] in Hn.
      cbn [lstrip]. destruct (space1 a) eqn:E1; [apply IH; lia|].
      destruct s1 as [|b s2]; [cbn [starts_clean]; now rewrite E1|].
      cbn [String.length] in Hn.
      destruct (space2 a b) eqn:E2; [apply IH; lia|].
      destruct s2 as [|c s3]; [cbn [starts_clean]; now rewrite E1, E2|].
      cbn [String.length] in Hn.
      destruct (space3 a b c) eqn:E3; [apply IH; lia|].
      cbn [starts_clean]. now rewrite E1, E2, E3. }
  now apply (H (String.length s)).
Qed.

Lemma starts_clean_prefix (p u : string) :
  starts_clean (p ++ u) = true -> starts_clean p = true.
Proof.
  destruct p as [|a [|b [|c p]]]; [reflexivity| | |];
    rewrite ?append_cons; change ("" ++ u) with u;
    cbn [starts_clean]; intros H.
  - apply andb_true_iff in H as [-> _]. reflexivity.
  - apply andb_true_iff in H as [-> H]. destruct u; cbn in H |- *;
      apply andb_true_iff in H as [-> _]; reflexivity.
  - exact H.
Qed.

Lemma rstrip_prefix (s : string) : exists u, s = rstrip s ++ u.
Proof.
  induction s as [|a s [u IH]]; [now exists ""|].
  rewrite rstrip_cons. destruct (one_space (String a (rstrip s))).
  - now exists (String a s).
  - exists u. rewrite append_cons. now rewrite <- IH.
Qed.

Lemma rstrip_rstrip (s : string) : rstrip (rstrip s) = rstrip s.
Proof.
  induction s as [|a s IH]; [reflexivity|].
  rewrite rstrip_cons.
  destruct (one_space (String a (rstrip s))) eqn:E; [reflexivity|].
  now rewrite rstrip_cons, IH, E.
Qed.

Lemma strip_strip (s : string) : strip (strip s) = strip s.
Proof.
  unfold strip.
  destruct (rstrip_prefix (lstrip s)) as [u Hu].
  assert (H : starts_clean (rstrip (lstrip s)) = true).
  { apply (starts_clean_prefix _ u). rewrite <- Hu.
    apply starts_clean_lstrip. }
  rewrite (lstrip_clean _ H). apply rstrip_rstrip.
Qed.

Lemma returned_strip (x s : string) :
  @inr exn string (strip x) = inr s -> strip s = s.
Proof. intros [= <-]. apply strip_strip. Qed.

End StripStable.

(** X17.  The prompts of the three builders carry no white space at
    either end, whatever the payload holds: stripping them again changes
    nothing. *)
Theorem prompts_are_stripped
    (doc_type project_name language project_relevance profile_language
       current_project legal_prompt profile_prompt evaluation_prompt : string)
    (parties past_projects : list (gmap string string))
    (f : company_profiles.firm) :
  legal_docs.build_prompt doc_type parties project_name language
  = inr legal_prompt ->
  company_profiles.build_prompt f project_relevance profile_language
  = inr profile_prompt ->
  project_lists.build_prompt current_project past_projects
  = inr evaluation_prompt ->
  strip legal_prompt = legal_prompt /\
  strip profile_prompt = profile_prompt /\
  strip evaluation_prompt = evaluation_prompt.
Proof.
  intros H1 H2 H3. split; [|split].
  - revert H1. unfold legal_docs.build_prompt.
    repeat case_decide;
      repeat match goal with
             | |- context [bind ?m _] =>
                 destruct m; cbn [bind ret raise]; try discriminate
             end;
      try discriminate; apply returned_strip.
  - revert H2. unfold company_profiles.build_prompt.
    repeat match goal with
           | |- context [bind ?m _] =>
               destruct m; cbn [bind ret raise]; try discriminate
           end.
    apply returned_strip.
  - revert H3. unfold project_lists.build_prompt.
    repeat match goal with
           | |- context [bind ?m _] =>
               destruct m; cbn [bind ret raise]; try discriminate
           end.
    apply returned_strip.
Qed.

Lemma prompts_are_stripped_witness :
  exists legal_prompt profile_prompt evaluation_prompt,
    legal_docs.build_prompt "letter_of_association"
      letter_of_association_parties "Renewable Energy Project" "english"
    = inr legal_prompt /\
    company_profiles.build_prompt sample_firm "Smart City" "english"
    = inr profile_prompt /\
    project_lists.build_prompt current past_with_trailing_space
    = inr evaluation_prompt /\
    strip legal_prompt = legal_prompt /\
    strip profile_prompt = profile_prompt /\
    strip evaluation_prompt = evaluation_prompt.
Proof.
  do 3 eexists.
  assert (H1 : legal_docs.build_prompt "letter_of_association"
                 letter_of_association_parties "Renewable Energy Project"
                 "english" = inr _) by (vm_compute; reflexivity).
  assert (H2 : company_profiles.build_prompt sample_firm "Smart City"
                 "english" = inr _) by (vm_compute; reflexivity).
  assert (H3 : project_lists.build_prompt current past_with_trailing_space
               = inr _) by (vm_compute; reflexivity).
  split; [exact H1|]. split; [exact H2|]. split; [exact H3|].
  exact (prompts_are_stripped _ _ _ _ _ _ _ _ _ _ _ _ H1 H2 H3).
Defined.

Lemma party_has_name_role (nr : string * string) :
  has_name_role (app.party nr).
Proof. split; eexists; reflexivity. Qed.

Lemma contact_complete (i : string * string * string * string) :
  complete (app.contact i).
Proof.
  destruct i as [[[n r] e] p]. repeat constructor; eexists; reflexivity.
Qed.

(** X18.  The legal page, with its two parties at least, never raises: it
    calls the provider twice, first for the power of attorney of the
    first two parties, then for the letter of association of all, and
    gives two texts, whatever the provider does. *)
Theorem legal_page_two_calls
    (env : provider) (project_name lang : string)
    (inputs : list (string * string)) (h : list call) :
  (2 <= length inputs)%nat ->
  exists poa loa poa_prompt loa_prompt,
    app.generate_legal_docs env project_name inputs lang h
    = (inr (poa, loa),
       (h ++ [legal_docs.request poa_prompt; legal_docs.request loa_prompt])%list)
    /\
    legal_docs.build_prompt "power_of_attorney"
      (take 2 (app.party <$> inputs)) project_name lang = inr poa_prompt /\
    legal_docs.build_prompt "letter_of_association"
      (app.party <$> inputs) project_name lang = inr loa_prompt.
Proof.
  intros Hlen.
  destruct inputs as [|i0 [|i1 inputs]]; simpl in Hlen; try lia.
  assert (H1 : exists p, legal_docs.build_prompt "power_of_attorney"
                 (take 2 (app.party <$> i0 :: i1 :: inputs)) project_name lang
               = inr p).
  { destruct (party_has_name_role i0) as [[n0 Hn0] [r0 Hr0]].
    destruct (party_has_name_role i1) as [[n1 Hn1] [r1 Hr1]].
    eexists. apply (poa_prompt _ _ _ _ _ _ _ _ [] Hn0 Hr0 Hn1 Hr1). }
  assert (H2 : exists p, legal_docs.build_prompt "letter_of_association"
                 (app.party <$> i0 :: i1 :: inputs) project_name lang
               = inr p).
  { destruct (firm_lines_ok (app.party <$> i0 :: i1 :: inputs)) as [firms Hf].
    - apply Forall_fmap, Forall_forall. intros nr _.
      apply party_has_name_role.
    - eexists. apply (loa_prompt _ _ _ _ Hf). }
  destruct H1 as [p1 H1]. destruct H2 as [p2 H2].
  unfold app.generate_legal_docs, mbind.
  unfold legal_docs.generate_legal_document at 1. unfold mbind, lift.
  rewrite H1. unfold try_except, invoke, mbind, mret.
  destruct (env h (legal_docs.request p1)) as [e1|t1];
    unfold legal_docs.generate_legal_document, mbind, lift;
    rewrite H2; unfold try_except, invoke, mbind, mret;
    destruct (env (h ++ [legal_docs.request p1])%list (legal_docs.request p2))
      as [e2|t2];
    do 2 eexists; exists p1, p2;
    (split; [rewrite <- app_assoc; reflexivity|split; reflexivity]).
Qed.

Lemma legal_page_two_calls_witness :
  (2 <= length legal_inputs)%nat /\
  exists poa loa poa_prompt loa_prompt,
    app.generate_legal_docs (failing (ProviderError "Connection error."))
      "Renewable Energy Project" legal_inputs "english" []
    = (inr (poa, loa),
       ([] ++ [legal_docs.request poa_prompt;
               legal_docs.request loa_prompt])%list)
    /\
    legal_docs.build_prompt "power_of_attorney"
      (take 2 (app.party <$> legal_inputs)) "Renewable Energy Project"
      "english" = inr poa_prompt /\
    legal_docs.build_prompt "letter_of_association"
      (app.party <$> legal_inputs) "Renewable Energy Project" "english"
    = inr loa_prompt.
Proof.
  assert (H : (2 <= length legal_inputs)%nat) by (simpl; lia).
  split; [exact H|].
  exact (legal_page_two_calls (failing (ProviderError "Connection error."))
           "Renewable Energy Project" "english" legal_inputs [] H).
Defined.

Lemma company_profile_returns (env : provider) (f : company_profiles.firm)
    (relevance lang n : string) (h : list call) :
  company_profiles.name f = Some n ->
  is_Some (company_profiles.description f) ->
  exists text prompt,
    company_profiles.generate_company_profile env f relevance lang h
    = (inr text, (h ++ [company_profiles.request prompt])%list).
Proof.
  intros Hn [d Hd].
  pose proof (profile_prompt f relevance lang n d Hn Hd) as Hb.
  cbv zeta in Hb.
  unfold company_profiles.generate_company_profile, mbind, lift, try_except,
    invoke, mret.
  rewrite Hb.
  match goal with
  | |- context [env h ?c] => destruct (env h c)
  end; do 2 eexists; reflexivity.
Qed.

Lemma generate_profiles_spec (env : provider)
    (firms : list (company_profiles.firm * string)) (names : list string)
    (lang : string) (profiles : gmap string string) (h : list call) :
  Forall2 (fun fr n => company_profiles.name fr.1 = Some n /\
                       is_Some (company_profiles.description fr.1))
    firms names ->
  exists profiles' h',
    app.generate_profiles env firms lang profiles h = (inr profiles', h') /\
    length h' = (length h + length firms)%nat /\
    dom profiles' = dom profiles ∪ list_to_set names.
Proof.
  intros H. revert profiles h.
  induction H as [|[f rel] n firms names [Hn Hd] _ IH]; intros profiles h.
  - exists profiles, h. split; [reflexivity|]. split; [simpl; lia|].
    cbn [list_to_set]. now rewrite (right_id_L ∅ (∪)).
  - destruct (company_profile_returns env f rel lang n h Hn Hd)
      as (text & prompt & Hg).
    destruct (IH (<[n := text]> profiles)
                 (h ++ [company_profiles.request prompt])%list)
      as (profiles' & h' & Hr & Hlen & Hdom).
    exists profiles', h'. split; [|split].
    + cbn [app.generate_profiles]. unfold mbind at 1. rewrite Hg.
      unfold mbind at 1, lift. cbn [fst] in Hn. rewrite Hn.
      cbn [company_profiles.firm_getitem ret]. exact Hr.
    + rewrite Hlen, length_app. simpl. lia.
    + rewrite Hdom, dom_insert_L. cbn [list_to_set].
      rewrite (comm_L (∪) {[n]} (dom profiles)).
      now rewrite <- (assoc_L (∪)).
Qed.

(** X19.  The profile page, on firms that all have name and description,
    never raises: it calls the provider once a firm and keeps one profile
    a name, so that firms of one name share an entry. *)
Theorem profile_page_calls_and_entries
    (env : provider) (firms : list (company_profiles.firm * string))
    (names : list string) (lang : string) (h : list call) :
  Forall2 (fun fr n => company_profiles.name fr.1 = Some n /\
                       is_Some (company_profiles.description fr.1))
    firms names ->
  exists profiles h',
    app.generate_profiles env firms lang ∅ h = (inr profiles, h') /\
    length h' = (length h + length firms)%nat /\
    dom profiles = list_to_set names.
Proof.
  intros H.
  destruct (generate_profiles_spec env firms names lang ∅ h H)
    as (profiles & h' & Hr & Hlen & Hdom).
  exists profiles, h'. split; [exact Hr|]. split; [exact Hlen|].
  rewrite Hdom, dom_empty_L. now rewrite (left_id_L ∅ (∪)).
Qed.

Lemma profile_page_calls_and_entries_witness :
  Forall2 (fun (fr : company_profiles.firm * string) n =>
             company_profiles.name fr.1 = Some n /\
             is_Some (company_profiles.description fr.1))
    firms_of_one_name ["Alpha Consulting"; "Alpha Consulting"] /\
  exists profiles h',
    app.generate_profiles (answering "profile") firms_of_one_name "english"
      ∅ [] = (inr profiles, h') /\
    length h' = (length (@nil call) + length firms_of_one_name)%nat /\
    dom profiles = list_to_set ["Alpha Consulting"; "Alpha Consulting"].
Proof.
  assert (H : Forall2 (fun (fr : company_profiles.firm * string) n =>
                company_profiles.name fr.1 = Some n /\
                is_Some (company_profiles.description fr.1))
                firms_of_one_name ["Alpha Consulting"; "Alpha Consulting"]).
  { repeat constructor; simpl; eauto. }
  split; [exact H|].
  exact (profile_page_calls_and_entries (answering "profile")
           firms_of_one_name _ "english" [] H).
Defined.

Lemma contact_list_returns (contacts : list (gmap string string))
    (order_by : string) :
  Forall complete contacts ->
  exists formatted,
    contacts.generate_contact_list contacts order_by = inr formatted.
Proof.
  intros H. unfold contacts.generate_contact_list.
  destruct (comprehension_ok contacts.format_contact
              (sorted (fun x => get x order_by "") contacts))
    as (out & Hout & _).
  - rewrite sorted_perm. eapply Forall_impl; [exact H|].
    intros c. apply format_contact_complete.
  - now exists out.
Qed.

(** X20.  The contact page never reaches its display: the contacts it
    builds carry the four keys, so [generate_contact_list] returns its
    list, and the page then asks this list for the string method
    [replace] and ends with an [AttributeError], whatever was entered. *)
Theorem contact_page_attribute_error
    (inputs : list (string * string * string * string)) (order : string) :
  app.generate_contacts inputs order
  = app.AttributeError
      (sq ++ "list" ++ sq ++ " object has no attribute " ++ sq ++ "replace"
       ++ sq).
Proof.
  unfold app.generate_contacts.
  destruct (contact_list_returns (app.contact <$> inputs) order)
    as [formatted ->]; [|reflexivity].
  apply Forall_fmap, Forall_forall. intros i _. apply contact_complete.
Qed.

(** ** cover_letter.py *)

Lemma cover_templates_cases (language : string) :
  cover_letter.get_language_templates language = cover_letter.english \/
  cover_letter.get_language_templates language = cover_letter.portuguese \/
  cover_letter.get_language_templates language = cover_letter.spanish.
Proof.
  unfold cover_letter.get_language_templates.
  destruct (decide (supported language)) as [Hs|Hn].
  - destruct (supported_cases _ Hs) as [E|[E|E]]; rewrite E;
      [left|right; left|right; right]; reflexivity.
  - left. destruct (unsupported_cases _ Hn) as (H1 & H2 & H3).
    unfold cover_letter.templates_table.
    rewrite !lookup_insert_ne, lookup_singleton_ne by assumption.
    reflexivity.
Qed.

Lemma cover_instructions_framed (language : string) :
  framed (cover_letter.instructions
            (cover_letter.get_language_templates language)).
Proof.
  destruct (cover_templates_cases language) as [E|[E|E]];
    rewrite E; eexists; (split; [reflexivity|intros r; reflexivity]).
Qed.

(** The worked example with its fields filled: fixed texts around the
    project name between double quotes, the lead firm, the firm names and
    the lead firm again. *)
Lemma cover_example_filled (language project_name lead_firm firm_names
    : string) :
  exists a b c d,
    cover_letter.format
      (cover_letter.example (cover_letter.get_language_templates language))
      {[ "project_name" := project_name; "lead_firm" := lead_firm;
         "firms" := firm_names ]}
    = Some (inr (a ++ dq ++ project_name ++ dq ++ b ++ lead_firm ++ c ++
                 firm_names ++ d ++ lead_firm ++ nl)).
Proof.
  destruct (cover_templates_cases language) as [E|[E|E]]; rewrite E.
  - exists "
Example Cover Letter:

Dear Review Committee,

We are pleased to submit our Expression of Interest for the project titled ",
      ".
Our consortium, led by ",
      ", includes ",
      ".
With a combined experience of over 50 years in sustainable energy projects, we are confident in delivering exceptional results aligned with the funding institution's objectives.

We look forward to collaborating on this transformative project.

Sincerely,
".
    reflexivity.
  - exists "
Exemplo de Carta de Apresentação:

Prezada Comissão Avaliadora,

Temos o prazer de submeter nossa Manifestação de Interesse para o projeto intitulado ",
      ".
Nosso consórcio, liderado pela ",
      ", inclui ",
      ".
Com uma experiência combinada de mais de 50 anos em projetos de energia sustentável, estamos confiantes em entregar resultados excepcionais alinhados aos objetivos da instituição financiadora.

Esperamos colaborar neste projeto transformador.

Atenciosamente,
".
    reflexivity.
  - exists "
Ejemplo de Carta de Presentación:

Estimado Comité Evaluador,

Nos complace presentar nuestra Manifestación de Interés para el proyecto titulado ",
      ".
Nuestro consorcio, liderado por ",
      ", incluye a ",
      ".
Con una experiencia combinada de más de 50 años en proyectos de energía sostenible, confiamos en ofrecer resultados excepcionales alineados con los objetivos de la institución financiadora.

Esperamos colaborar en este proyecto transformador.

Atentamente,
".
    reflexivity.
Qed.

Lemma firm_names_ok (firms : list (gmap string string)) (names : list string) :
  Forall2 (fun f n => f !! "name" = Some n) firms names ->
  comprehension (fun firm => getitem firm "name") firms = inr names.
Proof.
  induction 1 as [|f n firms names Hn _ IH]; [reflexivity|].
  cbn [comprehension]. unfold getitem at 1. rewrite Hn. cbn [bind ret].
  rewrite IH. reflexivity.
Qed.

(** The cover-letter prompt, its fixed parts and the strip worked out. *)
Lemma cover_prompt (project_name project_description funding_institution
    lead_firm language : string) (firms : list (gmap string string))
    (names : list string) :
  Forall2 (fun f n => f !! "name" = Some n) firms names ->
  exists a b c d,
    cover_letter.build_prompt project_name project_description
      funding_institution firms lead_firm language
    = Some (inr (tail (cover_letter.instructions
                         (cover_letter.get_language_templates language)) ++ "

Here is the project information you must incorporate:

Project Name: " ++ project_name ++ "
Project Description: " ++ project_description ++ "
Funding Institution: " ++ funding_institution ++ "
Participating Firms: " ++ join ", " names ++ "
Lead Firm: " ++ lead_firm ++ "

" ++ (a ++ dq ++ project_name ++ dq ++ b ++ lead_firm ++ c ++
      join ", " names ++ d ++ lead_firm ++ nl) ++ "

Now generate the cover letter following these guidelines.")).
Proof.
  intros Hn. apply firm_names_ok in Hn.
  destruct (cover_example_filled language project_name lead_firm
              (join ", " names)) as (a & b & c & d & Hf).
  exists a, b, c, d. unfold cover_letter.build_prompt.
  rewrite Hn, Hf. do 2 f_equal.
  destruct (cover_instructions_framed language) as (B & E & HB).
  rewrite E. change (tail (nl ++ B)) with B.
  strip_frame B ("

Here is the project information you must incorporate:

Project Name: " ++ project_name ++ "
Project Description: " ++ project_description ++ "
Funding Institution: " ++ funding_institution ++ "
Participating Firms: " ++ join ", " names ++ "
Lead Firm: " ++ lead_firm ++ "

" ++ (a ++ dq ++ project_name ++ dq ++ b ++ lead_firm ++ c ++
      join ", " names ++ d ++ lead_firm ++ nl)) "

Now generate the cover letter following these guidelines.
" HB.
Qed.

(** X21.  For every locale and for firms that all have a name, the prompt
    of the cover letter is built, and the values stand in it as given,
    braces included: the five facts under their labels, the project name
    between double quotes in the example, and the lead firm as the
    signature that ends the example. *)
Theorem cover_letter_prompt_filled
    (project_name project_description funding_institution lead_firm
       language : string)
    (firms : list (gmap string string)) (names : list string) :
  Forall2 (fun f n => f !! "name" = Some n) firms names ->
  exists prompt,
    cover_letter.build_prompt project_name project_description
      funding_institution firms lead_firm language = Some (inr prompt) /\
    contains ("Project Name: " ++ project_name ++ nl ++
              "Project Description: " ++ project_description ++ nl ++
              "Funding Institution: " ++ funding_institution ++ nl ++
              "Participating Firms: " ++ join ", " names ++ nl ++
              "Lead Firm: " ++ lead_firm ++ nl) prompt = true /\
    contains (dq ++ project_name ++ dq) prompt = true /\
    contains (lead_firm ++ nl ++ nl ++ nl ++
              "Now generate the cover letter following these guidelines.")
      prompt = true.
Proof.
  intros Hn.
  destruct (cover_prompt project_name project_description funding_institution
              lead_firm language firms names Hn) as (a & b & c & d & Hb).
  eexists. split; [exact Hb|].
  set (B := tail _).
  split; [|split]; apply contains_spec.
  - exists (B ++ "

Here is the project information you must incorporate:

"), ("
" ++ (a ++ dq ++ project_name ++ dq ++ b ++ lead_firm ++ c ++
      join ", " names ++ d ++ lead_firm ++ nl) ++ "

Now generate the cover letter following these guidelines.").
    rewrite !append_assoc. reflexivity.
  - exists (B ++ "

Here is the project information you must incorporate:

Project Name: " ++ project_name ++ "
Project Description: " ++ project_description ++ "
Funding Institution: " ++ funding_institution ++ "
Participating Firms: " ++ join ", " names ++ "
Lead Firm: " ++ lead_firm ++ "

" ++ a), (b ++ lead_firm ++ c ++ join ", " names ++ d ++ lead_firm ++ nl ++ "

Now generate the cover letter following these guidelines.").
    rewrite !append_assoc. reflexivity.
  - exists (B ++ "

Here is the project information you must incorporate:

Project Name: " ++ project_name ++ "
Project Description: " ++ project_description ++ "
Funding Institution: " ++ funding_institution ++ "
Participating Firms: " ++ join ", " names ++ "
Lead Firm: " ++ lead_firm ++ "

" ++ a ++ dq ++ project_name ++ dq ++ b ++ lead_firm ++ c ++
      join ", " names ++ d), "".
    rewrite !append_assoc. reflexivity.
Qed.

Lemma cover_letter_prompt_filled_witness :
  Forall2 (fun (f : gmap string string) n => f !! "name" = Some n)
    sample_firms ["Alpha Consulting"; "Beta Engineers"] /\
  exists prompt,
    cover_letter.build_prompt "{project_name}" "A {draft} project."
      "Fondo Global" sample_firms "Alpha Consulting" "spanish"
    = Some (inr prompt) /\
    contains ("Project Name: " ++ "{project_name}" ++ nl ++
              "Project Description: " ++ "A {draft} project." ++ nl ++
              "Funding Institution: " ++ "Fondo Global" ++ nl ++
              "Participating Firms: " ++
              join ", " ["Alpha Consulting"; "Beta Engineers"] ++ nl ++
              "Lead Firm: " ++ "Alpha Consulting" ++ nl) prompt = true /\
    contains (dq ++ "{project_name}" ++ dq) prompt = true /\
    contains ("Alpha Consulting" ++ nl ++ nl ++ nl ++
              "Now generate the cover letter following these guidelines.")
      prompt = true.
Proof.
  assert (H : Forall2 (fun (f : gmap string string) n => f !! "name" = Some n)
                sample_firms ["Alpha Consulting"; "Beta Engineers"]).
  { repeat constructor. }
  split; [exact H|].
  exact (cover_letter_prompt_filled "{project_name}" "A {draft} project."
           "Fondo Global" "Alpha Consulting" "spanish" sample_firms _ H).
Defined.

(** X22.  For firms that all have a name, [generate_cover_letter]
    returns the stripped answer of the provider, and when the provider
    raises it raises a [RuntimeError] that carries the description of the
    failure: unlike the legal and profile facades it never returns an
    error text. *)
Theorem cover_letter_outcome
    (generate_content : string -> result string)
    (project_name project_description funding_institution lead_firm
       language : string)
    (firms : list (gmap string string)) (names : list string) :
  Forall2 (fun f n => f !! "name" = Some n) firms names ->
  exists prompt,
    cover_letter.build_prompt project_name project_description
      funding_institution firms lead_firm language = Some (inr prompt) /\
    cover_letter.generate_cover_letter generate_content project_name
      project_description funding_institution firms lead_firm language
    = Some match generate_content prompt with
           | inr text => inr (strip text)
           | inl e =>
               inl (RuntimeError
                      ("Cover letter generation failed: " ++ str e))
           end.
Proof.
  intros Hn.
  destruct (cover_prompt project_name project_description funding_institution
              lead_firm language firms names Hn) as (a & b & c & d & Hb).
  eexists. split; [exact Hb|].
  unfold cover_letter.generate_cover_letter. rewrite Hb.
  match goal with
  | |- context [generate_content ?p] => destruct (generate_content p)
  end; reflexivity.
Qed.

Lemma cover_letter_outcome_witness :
  Forall2 (fun (f : gmap string string) n => f !! "name" = Some n)
    sample_firms ["Alpha Consulting"; "Beta Engineers"] /\
  exists prompt,
    cover_letter.build_prompt "Iniciativa" "Un proyecto." "Fondo Global"
      sample_firms "Alpha Consulting" "spanish" = Some (inr prompt) /\
    cover_letter.generate_cover_letter
      (fun _ => inl (ProviderError "Connection error."))
      "Iniciativa" "Un proyecto." "Fondo Global" sample_firms
      "Alpha Consulting" "spanish"
    = Some (inl (RuntimeError
                   ("Cover letter generation failed: " ++
                    "Connection error."))).
Proof.
  assert (H : Forall2 (fun (f : gmap string string) n => f !! "name" = Some n)
                sample_firms ["Alpha Consulting"; "Beta Engineers"]).
  { repeat constructor. }
  split; [exact H|].
  exact (cover_letter_outcome
           (fun _ => inl (ProviderError "Connection error."))
           "Iniciativa" "Un proyecto." "Fondo Global" "Alpha Consulting"
           "spanish" sample_firms _ H).
Defined.

(** X23.  A firm without name makes [generate_cover_letter] raise the
    [KeyError] of that key as it is, whatever the provider would do: the
    names are read before the prompt is built. *)
Theorem cover_letter_missing_name
    (generate_content : string -> result string)
    (project_name project_description funding_institution lead_firm
       language : string)
    (firms : list (gmap string string)) :
  Exists (fun f => f !! "name" = None) firms ->
  cover_letter.generate_cover_letter generate_content project_name
    project_description funding_institution firms lead_firm language
  = Some (inl (KeyError "name")).
Proof.
  intros Hex.
  destruct (comprehension_raises (fun firm => getitem firm "name")
              (fun e => e = KeyError "name") firms) as (e & -> & Hc).
  - intros f e. unfold getitem. destruct (f !! "name"); [discriminate|].
    now intros [= <-].
  - eapply Exists_impl; [exact Hex|].
    intros f Hf. unfold getitem. rewrite Hf. eauto.
  - unfold cover_letter.generate_cover_letter, cover_letter.build_prompt.
    now rewrite Hc.
Qed.

Lemma cover_letter_missing_name_witness :
  Exists (fun f : gmap string string => f !! "name" = None)
    [ {[ "name" := "Alpha Consulting" ]}; {[ "title" := "Beta" ]} ] /\
  cover_letter.generate_cover_letter (fun _ => inr "text") "Iniciativa"
    "Un proyecto." "Fondo Global"
    [ {[ "name" := "Alpha Consulting" ]}; {[ "title" := "Beta" ]} ]
    "Alpha Consulting" "spanish"
  = Some (inl (KeyError "name")).
Proof.
  assert (H : Exists (fun f : gmap string string => f !! "name" = None)
                [ {[ "name" := "Alpha Consulting" ]}; {[ "title" := "Beta" ]} ]).
  { apply Exists_cons_tl, Exists_cons_hd. reflexivity. }
  split; [exact H|].
  exact (cover_letter_missing_name (fun _ => inr "text") "Iniciativa"
           "Un proyecto." "Fondo Global" "Alpha Consulting" "spanish" _ H).
Defined.

(** X24.  The five template functions at the end of the file never raise:
    each returns its fixed text with the arguments inserted as they are,
    in the order of the fields, whatever the arguments hold. *)
Theorem prompt_templates_filled :
  (exists p0 p1 p2 p3 p4 p5,
     forall grantor_firm representative_name representative_title
            scope_of_authority effective_date,
       cover_letter.get_poaw_prompt grantor_firm representative_name
         representative_title scope_of_authority effective_date
       = Some (inr (p0 ++ grantor_firm ++ p1 ++ representative_name ++ p2 ++
                    representative_title ++ p3 ++ scope_of_authority ++ p4 ++
                    effective_date ++ p5))) /\
  (exists p0 p1 p2 p3 p4,
     forall lead_firm associate_firm association_purpose effective_date,
       cover_letter.get_loa_prompt lead_firm associate_firm
         association_purpose effective_date
       = Some (inr (p0 ++ lead_firm ++ p1 ++ associate_firm ++ p2 ++
                    association_purpose ++ p3 ++ effective_date ++ p4))) /\
  (exists p0 p1 p2 p3 p4 p5,
     forall firm_name year_established headquarters_location
            core_competencies key_projects,
       cover_letter.get_company_profile_prompt firm_name year_established
         headquarters_location core_competencies key_projects
       = Some (inr (p0 ++ firm_name ++ p1 ++ year_established ++ p2 ++
                    headquarters_location ++ p3 ++ core_competencies ++ p4 ++
                    key_projects ++ p5))) /\
  (exists p0 p1,
     forall contacts_list,
       cover_letter.get_contacts_prompt contacts_list
       = Some (inr (p0 ++ contacts_list ++ p1))) /\
  (exists p0 p1 p2 p3 p4,
     forall current_requirements past_project_name past_project_description
            past_project_year,
       cover_letter.get_project_list_entry_prompt current_requirements
         past_project_name past_project_description past_project_year
       = Some (inr (p0 ++ current_requirements ++ p1 ++ past_project_name ++
                    p2 ++ past_project_description ++ p3 ++
                    past_project_year ++ p4))).
Proof.
  split; [|split; [|split; [|split]]].
  - exists "You are a legal document specialist.
Draft a Power of Attorney document using only the details below.
Do not hallucinate any legal clauses—use standard, generic language.

Firm Granting Power: ",
      "
Authorized Representative: ",
      ", ",
      "
Scope of Authority: ",
      "
Effective Date: ",
      "

Structure:
1. Title: POWER OF ATTORNEY
2. Identification of grantor and representative
3. Statement of authority granted
4. Duration and limitations
5. Signatures and notarization block
".
    intros. reflexivity.
  - exists "You are a legal document specialist.
Draft a Letter of Association with the details below.
Use only provided information; do not add details.

Lead Firm: ",
      "
Associate Firm: ",
      "
Purpose of Association: ",
      "
Effective Date: ",
      "

Structure:
1. Title: LETTER OF ASSOCIATION
2. Introductory statement of purpose
3. Roles and responsibilities of each firm
4. Duration and termination clauses
5. Signature block for both firms
".
    intros. reflexivity.
  - exists "You are a marketing copywriter.
Create a concise company profile section using only the data below.

Firm Name: ",
      "
Established: ",
      "
Headquarters: ",
      "
Core Competencies: ",
      "
Key Projects (with dates): ",
      "

Structure:
1. Company Overview (1–2 sentences)
2. Core Competencies (bullet points)
3. Highlighted Past Projects (bullet points with dates)
4. Unique Value Proposition specific to the current project requirements
".
    intros. reflexivity.
  - exists "You are a detail-oriented assistant.
Compile the contact information into a neatly formatted table or list,
using only the fields given. Do not add or omit fields.

Contacts:
",
      "

Output as:
| Name               | Title             | Email               | Phone       |
|--------------------|-------------------|---------------------|-------------|
| ...                | ...               | ...                 | ...         |
".
    intros. reflexivity.
  - exists "You are an analytical reviewer.
For each past project provided, score its relevance (1–5) to the current project,
and generate a short justification. Use only these inputs—no extra info.

Current Project Requirements: ",
      "

Past Project:
- Name: ",
      "
- Description: ",
      "
- Year: ",
      "

Output Format:
- Project Name: …
- Relevance Score (1–5): …
- Justification: … (1–2 sentences)
".
    intros. reflexivity.
Qed.
